(** * Sovereign Audit: URL normalisation, resource extraction, service
    matching and weighted scoring.

    The development embeds the functions of the repository that the
    specification talks about and proves (or refutes) the properties claimed
    for them.

    Conventions of the embedding.
    - A JavaScript or Python string is a [string] of 8-bit characters: the
      model covers strings whose code units are below 256.
    - A regular expression literal of the source is a value of [Regex.regex]
      built with the same operators in the same order; [RegExp.test] on an
      anchored pattern is language membership, decided by derivatives.
    - The scoring functions are embedded twice.  [Scoring64] computes in
      binary64, as the program does: the decimal literals ([1.5], [0.6], ...)
      are rounded to floats, products and differences are rounded.
      [Scoring] is the same code over exact rationals in [Q]; the
      statements made over it are those that rounding does not change
      (order, bounds by whole numbers, deductions of exactly zero). *)

From Stdlib Require Import String Ascii List Bool Arith ZArith QArith Qround.
From Stdlib Require Import Lia Lqa.
From Stdlib Require Import ListSet Permutation.
From Stdlib Require Import SpecFloat.
Import ListNotations.

Close Scope Q_scope.
Local Open Scope string_scope.
Local Open Scope list_scope.

(* ===================================================================== *)
(** * Part I: definitions                                                  *)
(* ===================================================================== *)

(** ** String primitives of the two host languages *)

Module Str.

(** Characters removed by [String.prototype.trim]: TAB, LF, VT, FF, CR,
    SPACE and NBSP (the white space and line terminators below 256). *)
Definition is_ws (c : ascii) : bool :=
  let n := nat_of_ascii c in
  (n =? 9)%nat || (n =? 10)%nat || (n =? 11)%nat || (n =? 12)%nat ||
  (n =? 13)%nat || (n =? 32)%nat || (n =? 160)%nat.

Definition is_slash (c : ascii) : bool := Ascii.eqb c "/".

Definition is_empty (s : string) : bool :=
  match s with EmptyString => true | String _ _ => false end.

(** Drop the longest prefix whose characters satisfy [p]. *)
Fixpoint drop_start (p : ascii -> bool) (s : string) : string :=
  match s with
  | EmptyString => EmptyString
  | String c s' => if p c then drop_start p s' else s
  end.

(** Drop the longest suffix whose characters satisfy [p]. *)
Fixpoint drop_end (p : ascii -> bool) (s : string) : string :=
  match s with
  | EmptyString => EmptyString
  | String c s' =>
      let t := drop_end p s' in
      if is_empty t && p c then EmptyString else String c t
  end.

(** [s.trim()] *)
Definition trim (s : string) : string := drop_end is_ws (drop_start is_ws s).

(** "s.replace(/\/+$/, '')": the only match of the pattern is the maximal
    run of slashes that ends the string. *)
Definition strip_trailing_slashes (s : string) : string := drop_end is_slash s.

(** [s.startsWith(p)] *)
Definition startsWith (p s : string) : bool := String.prefix p s.

(** Python's [needle in haystack] on [str]. *)
Fixpoint contains (needle haystack : string) : bool :=
  String.prefix needle haystack ||
  match haystack with
  | EmptyString => false
  | String _ h' => contains needle h'
  end.

Definition is_upper (c : ascii) : bool :=
  let n := nat_of_ascii c in (65 <=? n)%nat && (n <=? 90)%nat.
Definition is_lower (c : ascii) : bool :=
  let n := nat_of_ascii c in (97 <=? n)%nat && (n <=? 122)%nat.
Definition is_digit (c : ascii) : bool :=
  let n := nat_of_ascii c in (48 <=? n)%nat && (n <=? 57)%nat.
Definition is_alpha (c : ascii) : bool := is_upper c || is_lower c.
Definition is_alnum (c : ascii) : bool := is_alpha c || is_digit c.

Definition lower_char (c : ascii) : ascii :=
  if is_upper c then ascii_of_nat (nat_of_ascii c + 32) else c.
Definition upper_char (c : ascii) : ascii :=
  if is_lower c then ascii_of_nat (nat_of_ascii c - 32) else c.

(** [str.lower()] and [str.upper()] on the ASCII letters. *)
Fixpoint lower (s : string) : string :=
  match s with
  | EmptyString => EmptyString
  | String c s' => String (lower_char c) (lower s')
  end.
Fixpoint upper (s : string) : string :=
  match s with
  | EmptyString => EmptyString
  | String c s' => String (upper_char c) (upper s')
  end.

Fixpoint forallb (p : ascii -> bool) (s : string) : bool :=
  match s with
  | EmptyString => true
  | String c s' => p c && forallb p s'
  end.

End Str.

(** ** Regular expressions *)

Module Regex.

Inductive regex : Type :=
| Void : regex
| Eps : regex
| Cls : (ascii -> bool) -> regex
| Cat : regex -> regex -> regex
| Alt : regex -> regex -> regex
| Star : regex -> regex.

(** The words of a regular expression. *)
Inductive matches : regex -> string -> Prop :=
| MEps : matches Eps ""
| MCls p c : p c = true -> matches (Cls p) (String c "")
| MCat r1 r2 s1 s2 :
    matches r1 s1 -> matches r2 s2 -> matches (Cat r1 r2) (s1 ++ s2)
| MAltL r1 r2 s : matches r1 s -> matches (Alt r1 r2) s
| MAltR r1 r2 s : matches r2 s -> matches (Alt r1 r2) s
| MStar0 r : matches (Star r) ""
| MStarS r s1 s2 :
    matches r s1 -> matches (Star r) s2 -> matches (Star r) (s1 ++ s2).

Fixpoint nullable (r : regex) : bool :=
  match r with
  | Void => false
  | Eps => true
  | Cls _ => false
  | Cat r1 r2 => nullable r1 && nullable r2
  | Alt r1 r2 => nullable r1 || nullable r2
  | Star _ => true
  end.

Fixpoint deriv (c : ascii) (r : regex) : regex :=
  match r with
  | Void => Void
  | Eps => Void
  | Cls p => if p c then Eps else Void
  | Cat r1 r2 =>
      if nullable r1 then Alt (Cat (deriv c r1) r2) (deriv c r2)
      else Cat (deriv c r1) r2
  | Alt r1 r2 => Alt (deriv c r1) (deriv c r2)
  | Star r1 => Cat (deriv c r1) (Star r1)
  end.

(** Membership of the whole string: [/^r$/.test(s)]. *)
Fixpoint full_match (r : regex) (s : string) : bool :=
  match s with
  | EmptyString => nullable r
  | String c s' => full_match (deriv c r) s'
  end.

(** Character classes and the derived operators of the source patterns. *)
Definition chr (c : ascii) : regex := Cls (Ascii.eqb c).
(** A letter under the [i] flag. *)
Definition chr_i (c : ascii) : regex :=
  Cls (fun x => Ascii.eqb (Str.lower_char x) (Str.lower_char c)).
Definition any_char : regex := Cls (fun _ => true).
(** [.] excludes the line terminators LF and CR. *)
Definition dot : regex :=
  Cls (fun x => negb (Ascii.eqb x "010" || Ascii.eqb x "013")).
Definition alnum : regex := Cls Str.is_alnum.                 (* [a-zA-Z0-9] *)
Definition alnum_dash : regex :=
  Cls (fun x => Str.is_alnum x || Ascii.eqb x "-").            (* [a-zA-Z0-9-] *)
Definition alpha : regex := Cls Str.is_alpha.                 (* [a-zA-Z] *)
Definition digit : regex := Cls Str.is_digit.                 (* \d *)

Definition opt (r : regex) : regex := Alt r Eps.              (* r? *)
Definition plus (r : regex) : regex := Cat r (Star r).        (* r+ *)

Fixpoint rep_exact (n : nat) (r : regex) : regex :=           (* r{n} *)
  match n with
  | O => Eps
  | S n' => Cat r (rep_exact n' r)
  end.
Fixpoint rep_upto (n : nat) (r : regex) : regex :=            (* r{0,n} *)
  match n with
  | O => Eps
  | S n' => opt (Cat r (rep_upto n' r))
  end.
Definition rep_range (m n : nat) (r : regex) : regex :=       (* r{m,n} *)
  Cat (rep_exact m r) (rep_upto (n - m) r).
Definition rep_min (m : nat) (r : regex) : regex :=           (* r{m,} *)
  Cat (rep_exact m r) (Star r).

Fixpoint lit (s : string) : regex :=
  match s with
  | EmptyString => Eps
  | String c s' => Cat (chr c) (lit s')
  end.
Fixpoint lit_i (s : string) : regex :=
  match s with
  | EmptyString => Eps
  | String c s' => Cat (chr_i c) (lit_i s')
  end.

(** [/^r/.test(s)]: some prefix of [s] is a word of [r]. *)
Definition prefix_match (r : regex) (s : string) : bool :=
  full_match (Cat r (Star any_char)) s.

End Regex.

(** ** [normalizeUrl] of the URL utility module (src/unnamed/part_000) *)

Module UrlNormalizer.
Import Regex.

(** The pattern "/^https?:\/\//i". *)
Definition scheme_re : regex :=
  Cat (lit_i "http") (Cat (opt (chr_i "s")) (lit_i "://")).
(** The pattern "/^http:\/\//i". *)
Definition http_re : regex := lit_i "http://".

(** The group "([a-zA-Z0-9-]{0,61}[a-zA-Z0-9])?". *)
Definition label_tail : regex := opt (Cat (rep_upto 61 alnum_dash) alnum).
(** PATH, the optional last group of the four host patterns: a slash
    followed by dot-star, all of it optional. *)
Definition path_re : regex := opt (Cat (chr "/") (Star dot)).
(** The group "(:\d+)?". *)
Definition port_re : regex := opt (Cat (chr ":") (plus digit)).

(** "/^([a-zA-Z0-9]([a-zA-Z0-9-]{0,61}[a-zA-Z0-9])?\.)+[a-zA-Z]{2,}PATH$/" *)
Definition domainPattern : regex :=
  Cat (plus (Cat (Cat alnum label_tail) (chr ".")))
      (Cat (rep_min 2 alpha) path_re).

(** "/^[a-zA-Z0-9][a-zA-Z0-9-]*[a-zA-Z0-9]*\.[a-zA-Z]{2,}PATH$/" *)
Definition simpleDomainPattern : regex :=
  Cat alnum (Cat (Star alnum_dash) (Cat (Star alnum)
      (Cat (chr ".") (Cat (rep_min 2 alpha) path_re)))).

(** "/^(localhost|127\.0\.0\.1|0\.0\.0\.0)(:\d+)?PATH$/" *)
Definition localhostPattern : regex :=
  Cat (Alt (lit "localhost") (Alt (lit "127.0.0.1") (lit "0.0.0.0")))
      (Cat port_re path_re).

(** "/^\d{1,3}\.\d{1,3}\.\d{1,3}\.\d{1,3}(:\d+)?PATH$/" *)
Definition ipPattern : regex :=
  let octet := rep_range 1 3 digit in
  Cat octet (Cat (chr ".") (Cat octet (Cat (chr ".") (Cat octet
      (Cat (chr ".") (Cat octet (Cat port_re path_re))))))).

Fixpoint drop (n : nat) (s : string) : string :=
  match n, s with
  | O, _ => s
  | S n', String _ s' => drop n' s'
  | S _, EmptyString => EmptyString
  end.

(** "url.replace(/^http:\/\//i, 'https://')" on a [url] that the pattern
    matches: the seven matched characters are replaced. *)
Definition upgrade_http (url : string) : string := "https://" ++ drop 7 url.

Definition looks_like_host (url : string) : bool :=
  full_match domainPattern url ||
  full_match simpleDomainPattern url ||
  full_match localhostPattern url ||
  full_match ipPattern url.

Definition normalizeUrl (input : string) : string :=
  if Str.is_empty input then input
  else
    let url := Str.trim input in
    let url := Str.strip_trailing_slashes url in
    if prefix_match scheme_re url then
      if prefix_match http_re url then upgrade_http url else url
    else if Str.startsWith "//" url then "https:" ++ url
    else if looks_like_host url then "https://" ++ url
    else url.

End UrlNormalizer.

(** ** The submit path of the Hero component (src/unnamed/part_001) and of
    [App.handleAnalyze] (src/frontend/src/App.jsx) *)

Module Hero.
Import Regex.

(** The label "[a-zA-Z0-9]([a-zA-Z0-9-]{0,61}[a-zA-Z0-9])?". *)
Definition label_re : regex := Cat alnum UrlNormalizer.label_tail.

(** "/^L(\.L)*\.[a-zA-Z]{2,}/" with L the label pattern; not anchored at
    the end. *)
Definition domain_re : regex :=
  Cat label_re (Cat (Star (Cat (chr ".") label_re))
      (Cat (chr ".") (rep_min 2 alpha))).

Definition normalizeUrl (input : string) : string :=
  if Str.is_empty input || Str.is_empty (Str.trim input) then input
  else
    let url := Str.trim input in
    if prefix_match UrlNormalizer.scheme_re url then url
    else if Str.startsWith "//" url then "https:" ++ url
    else if prefix_match domain_re url then "https://" ++ url
    else if full_match label_re url then "https://" ++ url
    else if Str.startsWith "/" url then url
    else "https://" ++ url.

(** [handleSubmit] calls [onAnalyze] only for a non-blank field;
    [handleAnalyze] normalises once more and posts the result.  [None]: no
    request is made. *)
Definition handleAnalyze (url : string) : string :=
  UrlNormalizer.normalizeUrl url.

Definition handleSubmit (field : string) : option string :=
  if Str.is_empty (Str.trim field) then None
  else Some (handleAnalyze (normalizeUrl (Str.trim field))).

End Hero.

(** ** Resource extraction: [analyze_embedded_resources]
    (src/unnamed/part_004, Quick Win 2) *)

Module Resources.

(** The regular expressions of the function, by the name the source binds
    them to (the three unnamed members of [api_patterns] by their callee). *)
Inductive pattern : Type :=
| script_pattern | css_pattern | img_pattern | iframe_pattern
| font_pattern | font_link_pattern
| api_fetch | api_axios | api_ajax.

(** An element of the list [re.findall] returns: the text of the group for a
    pattern with one group, the tuple of the groups for a pattern with more
    (here [api_axios]). *)
Inductive found : Type :=
| FStr (s : string)
| FTuple (groups : list string).

(** The entries appended to [resources]; [note] is set for frames only. *)
Record resource : Type := mk_resource {
  url : string;
  domain : string;
  note : option string
}.

(** [resources = defaultdict(list)], one field per key the function uses, in
    the order the keys are first written. *)
Record resources : Type := mk_resources {
  external_scripts : list resource;
  external_stylesheets : list resource;
  external_images : list resource;
  iframes : list resource;
  external_fonts : list resource;
  api_calls : list resource
}.

Record analysis : Type := mk_analysis {
  resources_by_type : resources;
  unique_domains : set string;
  total_external_resources : nat
}.

Definition api_patterns : list pattern := [api_fetch; api_axios; api_ajax].

Definition all_items (r : resources) : list resource :=
  external_scripts r ++ external_stylesheets r ++ external_images r ++
  iframes r ++ external_fonts r ++ api_calls r.

Section WithLibrary.

(** Python's library, as the function calls it:
    [findall p html] is [re.findall(p, html, re.IGNORECASE)] for the
    one-group patterns, [findall_any] the same call where the element type is
    tested with [isinstance]; [urljoin] is [urllib.parse.urljoin] and
    [netloc u] is [urlparse(u).netloc]. *)
Variable findall : pattern -> string -> list string.
Variable findall_any : pattern -> string -> list found.
Variable urljoin : string -> string -> string.
Variable netloc : string -> string.

(** The test of the five tag loops:
    [domain and domain not in urlparse(base_url).netloc]. *)
Definition keeps (base_url domain : string) : bool :=
  negb (Str.is_empty domain) && negb (Str.contains domain (netloc base_url)).

(** Body of the loops 1-5: resolve, take the host, test, append. *)
Definition tag_step (base_url : string) (nt : option string)
    (acc : list resource) (ref : string) : list resource :=
  let full_url := urljoin base_url ref in
  let domain := netloc full_url in
  if keeps base_url domain then acc ++ [mk_resource full_url domain nt]
  else acc.

Definition tag_loop (base_url : string) (nt : option string)
    (refs : list string) : list resource :=
  fold_left (tag_step base_url nt) refs [].

(** The references a tag loop keeps, in closed form. *)
Definition kept_refs (base_url : string) (nt : option string)
    (refs : list string) : list resource :=
  map (fun ref => mk_resource (urljoin base_url ref)
                              (netloc (urljoin base_url ref)) nt)
      (filter (fun ref => keeps base_url (netloc (urljoin base_url ref))) refs).

(** [url = match if isinstance(match, str) else match[-1]] *)
Definition url_of_match (m : found) : string :=
  match m with
  | FStr s => s
  | FTuple groups => last groups ""
  end.

(** Body of loop 6: no resolution and no comparison with the base URL. *)
Definition api_step (acc : list resource) (m : found) : list resource :=
  let url := url_of_match m in
  if Str.startsWith "http" url then acc ++ [mk_resource url (netloc url) None]
  else acc.

Definition api_loop (html_content : string) : list resource :=
  fold_left
    (fun acc p => fold_left api_step (findall_any p html_content) acc)
    api_patterns [].

(** [all_domains = set()] filled by the two nested loops over [resources]. *)
Definition collect_domains (r : resources) : set string :=
  fold_left (fun s item => set_add string_dec (domain item) s)
            (all_items r) (empty_set string).

Definition analyze_embedded_resources (html_content base_url : string)
    : analysis :=
  let scripts := findall script_pattern html_content in
  let stylesheets := findall css_pattern html_content in
  let images := findall img_pattern html_content in
  let frames := findall iframe_pattern html_content in
  let fonts := findall font_pattern html_content in
  let font_links := findall font_link_pattern html_content in
  let r :=
    mk_resources
      (tag_loop base_url None scripts)
      (tag_loop base_url None stylesheets)
      (tag_loop base_url None images)
      (tag_loop base_url (Some "Likely widget (chat, payment, etc.)") frames)
      (tag_loop base_url None (fonts ++ font_links))
      (api_loop html_content) in
  mk_analysis r (collect_domains r) (length (all_items r)).

End WithLibrary.

(** A model of [urlparse(u).netloc] for the URLs of the examples: after an
    optional scheme and the two slashes that follow it, the text up to the
    next slash, question mark or hash; empty when there are no two slashes. *)
Definition is_scheme_char (c : ascii) : bool :=
  Str.is_alnum c || Ascii.eqb c "+" || Ascii.eqb c "-" || Ascii.eqb c ".".

Fixpoint after_scheme (s : string) : option string :=
  match s with
  | EmptyString => None
  | String c s' =>
      if Ascii.eqb c ":" then Some s'
      else if is_scheme_char c then after_scheme s' else None
  end.

Fixpoint take_host (s : string) : string :=
  match s with
  | EmptyString => EmptyString
  | String c s' =>
      if Ascii.eqb c "/" || Ascii.eqb c "?" || Ascii.eqb c "#" then EmptyString
      else String c (take_host s')
  end.

Definition py_netloc (u : string) : string :=
  let rest := match after_scheme u with Some r => r | None => u end in
  match rest with
  | String "/" (String "/" r) => take_host r
  | _ => EmptyString
  end.

(** [urljoin(base, ref)] for a reference that carries its own scheme and
    host: the reference itself.  Only such references are used below. *)
Definition py_urljoin_absolute (base ref : string) : string := ref.

(** *** The patterns of the function and a backtracking matcher for them

    The nine patterns are sequences of literals, character classes with
    [*], [+] or [?], alternatives of literals, and capturing groups; the
    matcher below is the usual greedy backtracking search for that
    fragment, under [re.IGNORECASE]. *)
Inductive item : Type :=
| ILit (w : string)                 (* literal text *)
| ICls (p : ascii -> bool)          (* one character of a class *)
| IStar (p : ascii -> bool)         (* class, zero or more times *)
| IPlus (p : ascii -> bool)         (* class, one or more times *)
| IOpt (p : ascii -> bool)          (* class, at most once *)
| IAlt (ws : list string)           (* one of several literals *)
| IOpen                             (* opening parenthesis of a group *)
| IClose.                           (* closing parenthesis of a group *)

(** [w] is a prefix of [s] up to letter case; the rest of [s] if so. *)
Fixpoint strip_prefix_i (w s : string) : option string :=
  match w, s with
  | EmptyString, _ => Some s
  | String _ _, EmptyString => None
  | String a w', String b s' =>
      if Ascii.eqb (Str.lower_char a) (Str.lower_char b)
      then strip_prefix_i w' s' else None
  end.

(** The text of [whole] between two positions given by the lengths of the
    remaining input. *)
Definition between (whole : string) (from_left to_left : nat) : string :=
  String.substring (String.length whole - from_left) (from_left - to_left) whole.

(** [match_items items whole opens caps s]: match [items] at the start of
    [s]; the result is the captured groups and the input left. *)
Fixpoint match_items (items : list item) (whole : string) (opens : list nat)
    (caps : list string) (s : string) : option (list string * string) :=
  match items with
  | [] => Some (caps, s)
  | ILit w :: rest =>
      match strip_prefix_i w s with
      | Some s' => match_items rest whole opens caps s'
      | None => None
      end
  | ICls p :: rest =>
      match s with
      | String c s' =>
          if p c then match_items rest whole opens caps s' else None
      | EmptyString => None
      end
  | IStar p :: rest =>
      (fix loop (t : string) : option (list string * string) :=
         match t with
         | String c t' =>
             if p c then
               match loop t' with
               | Some r => Some r
               | None => match_items rest whole opens caps t
               end
             else match_items rest whole opens caps t
         | EmptyString => match_items rest whole opens caps t
         end) s
  | IPlus p :: rest =>
      match s with
      | String c0 s0 =>
          if p c0 then
            (fix loop (t : string) : option (list string * string) :=
               match t with
               | String c t' =>
                   if p c then
                     match loop t' with
                     | Some r => Some r
                     | None => match_items rest whole opens caps t
                     end
                   else match_items rest whole opens caps t
               | EmptyString => match_items rest whole opens caps t
               end) s0
          else None
      | EmptyString => None
      end
  | IOpt p :: rest =>
      match s with
      | String c s' =>
          if p c then
            match match_items rest whole opens caps s' with
            | Some r => Some r
            | None => match_items rest whole opens caps s
            end
          else match_items rest whole opens caps s
      | EmptyString => match_items rest whole opens caps s
      end
  | IAlt ws :: rest =>
      (fix try (alts : list string) : option (list string * string) :=
         match alts with
         | [] => None
         | w :: alts' =>
             match strip_prefix_i w s with
             | Some s' =>
                 match match_items rest whole opens caps s' with
                 | Some r => Some r
                 | None => try alts'
                 end
             | None => try alts'
             end
         end) ws
  | IOpen :: rest =>
      match_items rest whole (String.length s :: opens) caps s
  | IClose :: rest =>
      match opens with
      | o :: opens' =>
          match_items rest whole opens'
            (caps ++ [between whole o (String.length s)]) s
      | [] => None
      end
  end.

(** One element of the list [re.findall] returns. *)
Definition found_of (caps : list string) : found :=
  match caps with
  | [c] => FStr c
  | _ => FTuple caps
  end.

(** [re.findall]: the matches from left to right, without overlap.  The
    fuel bounds the number of positions tried; the length of the input plus
    one is enough. *)
Fixpoint scan (fuel : nat) (items : list item) (whole s : string)
    : list found :=
  match fuel with
  | O => []
  | S fuel' =>
      match match_items items whole [] [] s with
      | Some (caps, rest) =>
          if (String.length rest <? String.length s)%nat
          then found_of caps :: scan fuel' items whole rest
          else match s with
               | String _ s' => found_of caps :: scan fuel' items whole s'
               | EmptyString => [found_of caps]
               end
      | None =>
          match s with
          | String _ s' => scan fuel' items whole s'
          | EmptyString => []
          end
      end
  end.

Definition re_findall (items : list item) (html : string) : list found :=
  scan (S (String.length html)) items html html.

Definition is_quote (c : ascii) : bool :=
  Ascii.eqb c "034" || Ascii.eqb c "039".         (* double or single quote *)
Definition not_quote (c : ascii) : bool := negb (is_quote c).
Definition not_gt (c : ascii) : bool := negb (Ascii.eqb c ">").
Definition not_brace (c : ascii) : bool := negb (Ascii.eqb c "}").
(** Python's white space class on the characters below 256. *)
Definition py_space (c : ascii) : bool :=
  let n := nat_of_ascii c in
  ((9 <=? n) && (n <=? 13))%nat || ((28 <=? n) && (n <=? 32))%nat ||
  (n =? 133)%nat || (n =? 160)%nat.
Definition font_url_char (c : ascii) : bool :=
  negb (is_quote c || Ascii.eqb c ")" || py_space c).

(** A tag with a quoted attribute whose value is the group. *)
Definition tag_attr (tag attr : string) : list item :=
  [ILit tag; IStar not_gt; ILit attr; ICls is_quote;
   IOpen; IPlus not_quote; IClose; ICls is_quote].

(** A call with a quoted first argument, which is the group. *)
Definition call_arg (callee : string) : list item :=
  [ILit callee; ICls is_quote; IOpen; IPlus not_quote; IClose; ICls is_quote].

Definition pattern_items (p : pattern) : list item :=
  match p with
  | script_pattern => tag_attr "<script" "src="
  | css_pattern =>
      [ILit "<link"; IStar not_gt; ILit "href="; ICls is_quote;
       IOpen; IPlus not_quote; ILit ".css"; IStar not_quote; IClose;
       ICls is_quote]
  | img_pattern => tag_attr "<img" "src="
  | iframe_pattern => tag_attr "<iframe" "src="
  | font_pattern =>
      [ILit "@font-face"; IStar not_brace; ILit "url("; IOpt is_quote;
       IOpen; IPlus font_url_char; IClose; IOpt is_quote; ILit ")"]
  | font_link_pattern =>
      [ILit "<link"; IStar not_gt; ILit "href="; ICls is_quote;
       IOpen; IStar not_quote; ILit "fonts"; IStar not_quote; IClose;
       ICls is_quote]
  | api_fetch => call_arg "fetch("
  | api_axios =>
      [ILit "axios."; IOpen; IAlt ["get"; "post"]; IClose; ILit "(";
       ICls is_quote; IOpen; IPlus not_quote; IClose; ICls is_quote]
  | api_ajax => call_arg "$.ajax("
  end.

Definition text_of (m : found) : string :=
  match m with
  | FStr s => s
  | FTuple groups => String.concat "," groups
  end.

(** [re.findall(pattern, html, re.IGNORECASE)] for the patterns above. *)
Definition py_findall_any (p : pattern) (html : string) : list found :=
  re_findall (pattern_items p) html.
Definition py_findall (p : pattern) (html : string) : list string :=
  map text_of (py_findall_any p html).

End Resources.

(** ** Known services: [match_known_services] (src/unnamed/part_005,
    Level 7) and [detect_known_services] (src/unnamed/part_004, Quick Win 1) *)

Module KnownServices.

(** A value of the [KNOWN_SERVICES] dictionary of part_005. *)
Record service_info : Type := mk_info {
  name : string;
  location : string;
  category : string;
  risk : string;
  note : option string
}.

(** A dictionary in insertion order, as Python iterates it. *)
Definition registry : Type := list (string * service_info).

Definition svc (n l c r : string) : service_info := mk_info n l c r None.

Definition KNOWN_SERVICES : registry :=
  [ ("google-analytics.com", svc "Google Analytics" "United States" "Analytics" "High");
    ("mixpanel.com", svc "Mixpanel" "United States" "Analytics" "High");
    ("segment.com", svc "Segment" "United States" "Analytics" "High");
    ("plausible.io", svc "Plausible" "EU (Estonia)" "Analytics" "Low");
    ("intercom.io", svc "Intercom" "United States" "Customer Support" "Critical");
    ("zendesk.com", svc "Zendesk" "United States" "Customer Support" "High");
    ("crisp.chat", svc "Crisp" "France" "Customer Support" "Low");
    ("stripe.com", svc "Stripe" "United States" "Payment Processing" "Critical");
    ("paypal.com", svc "PayPal" "United States" "Payment Processing" "Critical");
    ("sendgrid.com", svc "SendGrid" "United States" "Email Service" "High");
    ("mailgun.com", svc "Mailgun" "United States" "Email Service" "High");
    ("s3.amazonaws.com", svc "AWS S3" "United States" "Cloud Storage" "Critical");
    ("googleapis.com", svc "Google Cloud Storage" "United States" "Cloud Storage" "Critical");
    ("fonts.googleapis.com",
       mk_info "Google Fonts" "United States" "CDN" "Medium"
               (Some "Shares IP address with Google"));
    ("fonts.gstatic.com", svc "Google Fonts CDN" "United States" "CDN" "Medium");
    ("api.openai.com", svc "OpenAI" "United States" "AI/ML" "Critical");
    ("api.anthropic.com", svc "Anthropic" "United States" "AI/ML" "Critical");
    ("sentry.io", svc "Sentry" "United States" "Error Tracking" "High");
    ("datadoghq.com", svc "Datadog" "United States" "Monitoring" "High") ].

(** The inner loop: every entry whose key occurs in [domain] is appended. *)
Definition match_entry (domain : string) (detected : list service_info)
    (entry : string * service_info) : list service_info :=
  let (known_domain, info) := entry in
  if Str.contains known_domain domain then detected ++ [info] else detected.

(** The two loops of [match_known_services] over an explicit registry. *)
Definition match_services (known : registry) (domains : list string)
    : list service_info :=
  fold_left (fun detected domain => fold_left (match_entry domain) known detected)
            domains [].

Definition match_known_services (domains : list string) : list service_info :=
  match_services KNOWN_SERVICES domains.

(** A value of the JSON registry of part_004 ([known_services.json]). *)
Record json_info : Type := mk_json_info {
  j_name : string;
  j_jurisdiction : string;
  j_category : string;
  j_risk_level : string;
  j_data_access : string;
  j_alternatives_eu : list string;
  j_notes : option string;
  j_gdpr_compliant : option bool
}.

(** [{**info, "domain": domain, "category_group": category}] *)
Record detected_service : Type := mk_detected {
  d_info : json_info;
  d_domain : string;
  d_category_group : string
}.

(** Category group -> (domain -> info), both in file order. *)
Definition json_registry : Type := list (string * list (string * json_info)).

Definition detect_entry (html_lower category : string)
    (detected : list detected_service) (entry : string * json_info)
    : list detected_service :=
  let (domain, info) := entry in
  if Str.contains domain html_lower
  then detected ++ [mk_detected info domain category]
  else detected.

(** [detect_known_services]; the module-level [KNOWN_SERVICES], loaded from
    the JSON file when the process starts, is the first argument. *)
Definition detect_known_services (known : json_registry)
    (html_content : string) : list detected_service :=
  let html_lower := Str.lower html_content in
  fold_left
    (fun detected group =>
       fold_left (detect_entry html_lower (fst group)) (snd group) detected)
    known [].

(** Counting the records that carry a display name. *)
Definition has_name (n : string) (i : service_info) : bool :=
  String.eqb (name i) n.

Definition records_named (n : string) (out : list service_info) : nat :=
  length (filter (has_name n) out).

(** The entries of display name [n] whose key occurs in [domain]. *)
Definition hits (known : registry) (n domain : string) : nat :=
  length (filter (fun e => Str.contains (fst e) domain && has_name n (snd e))
                 known).

Fixpoint total_hits (known : registry) (n : string) (domains : list string)
    : nat :=
  match domains with
  | [] => 0
  | d :: ds => hits known n d + total_hits known n ds
  end.

End KnownServices.

(** ** Weighted scoring: [calculate_weighted_score] (src/unnamed/part_005,
    Level 6) and [get_category_weight] (src/unnamed/part_004, Quick Win 4)

    This module reads the numbers as exact rationals; [Scoring64] below is
    the same code in the arithmetic of the running program. *)

Module Scoring.
Local Open Scope Q_scope.

(** A vendor dictionary as [calculate_weighted_score] reads it:
    [vendor.get("category", "Unknown")] tolerates a missing key,
    [vendor["location"]] does not, so [location] is a plain field. *)
Record vendor : Type := mk_vendor {
  category : option string;
  location : string
}.

Definition VENDOR_CATEGORY_WEIGHTS : list (string * Q) :=
  [ ("Database/Storage", 1.5);
    ("Cloud Infrastructure", 1.4);
    ("Authentication", 1.4);
    ("Payment Processing", 1.4);
    ("AI/ML Processing", 1.5);
    ("Email Service", 1.2);
    ("Customer Support", 1.2);
    ("SMS/Communications", 1.2);
    ("Backup/DR", 1.3);
    ("Analytics", 1.0);
    ("Monitoring/APM", 1.0);
    ("Error Tracking", 1.0);
    ("CDN", 0.8);
    ("DNS", 0.6);
    ("Marketing/Email", 0.9);
    ("A/B Testing", 0.8) ].

(** [d.get(key, default)] *)
Fixpoint dict_get (d : list (string * Q)) (key : string) (default : Q) : Q :=
  match d with
  | [] => default
  | (k, v) :: d' => if String.eqb k key then v else dict_get d' key default
  end.

(** [vendor.get("category", "Unknown")] *)
Definition category_of (v : vendor) : string :=
  match category v with
  | Some c => c
  | None => "Unknown"
  end.

(** [VENDOR_CATEGORY_WEIGHTS.get(category, 1.0)] *)
Definition weight_of (v : vendor) : Q :=
  dict_get VENDOR_CATEGORY_WEIGHTS (category_of v) 1.

(** The constant of the "Base penalty" branches, before weighting. *)
Definition base_penalty (loc : string) : Q :=
  if Str.contains "US" loc then 12
  else if Str.contains "GLOBAL" loc then 8
  else 0.

(** [penalty] of one iteration. *)
Definition penalty (v : vendor) : Q := base_penalty (location v) * weight_of v.

(** [score -= penalty] *)
Definition step (score : Q) (v : vendor) : Q := score - penalty v.

(** The value of [score] when the loop ends. *)
Definition running_total (vendors : list vendor) : Q :=
  fold_left step vendors 100.

(** Python's two-argument [min] and [max] return the first argument unless
    the second is strictly smaller (resp. larger). *)
Definition py_min (a b : Q) : Q := if Qlt_le_dec b a then b else a.
Definition py_max (a b : Q) : Q := if Qlt_le_dec a b then b else a.

(** [max(0, min(100, score))] *)
Definition clamp (score : Q) : Q := py_max 0 (py_min 100 score).

Definition calculate_weighted_score (vendors : list vendor) : Q :=
  clamp (running_total vendors).

(** The loop and the return statement as a relation between the state before,
    the vendors still to visit and the value produced. *)
Inductive loop : Q -> list vendor -> Q -> Prop :=
| loop_done score : loop score [] score
| loop_next score v vendors final :
    loop (score - penalty v) vendors final -> loop score (v :: vendors) final.

Inductive returns : list vendor -> Q -> Prop :=
| returns_clamped vendors final :
    loop 100 vendors final -> returns vendors (clamp final).

(** The sum of the deductions, for the closed form of the running total. *)
Fixpoint total_penalty (vendors : list vendor) : Q :=
  match vendors with
  | [] => 0
  | v :: vs => penalty v + total_penalty vs
  end.

(** [CATEGORY_WEIGHTS] and [get_category_weight] of part_004. *)
Definition CATEGORY_WEIGHTS : list (string * Q) :=
  [ ("AI/ML", 1.5);
    ("Payment Processing", 1.4);
    ("Database/Storage", 1.4);
    ("Cloud Infrastructure", 1.4);
    ("Authentication", 1.3);
    ("Email Service", 1.2);
    ("Customer Support", 1.2);
    ("Analytics", 1.0);
    ("Monitoring", 1.0);
    ("CDN", 0.8);
    ("Fonts", 0.7);
    ("Tag Management", 1.1) ].

Fixpoint first_weight (table : list (string * Q)) (purpose_upper : string)
    : Q :=
  match table with
  | [] => 1
  | (category, weight) :: table' =>
      if Str.contains (Str.upper category) purpose_upper then weight
      else first_weight table' purpose_upper
  end.

Definition get_category_weight (purpose : string) : Q :=
  first_weight CATEGORY_WEIGHTS (Str.upper purpose).

(** The replacement for [score -= 12] of part_004:
    [weighted_penalty = int(base_penalty * category_weight)] with
    [base_penalty = 12]; [int] truncates, the product is never negative. *)
Definition weighted_penalty (purpose : string) : Z :=
  Qfloor (12 * get_category_weight purpose).

Inductive risk : Type := High | Medium | Low.

(** Modelled from the spec: the risk classifier of the Scoring Engine, which
    lives in backend/main.py and is not among the sources.  Section 4.5:
    High below threshold A, Medium below threshold B, else Low, the two
    thresholds being parameters. *)
Definition risk_level (threshold_a threshold_b score : Q) : risk :=
  if Qlt_le_dec score threshold_a then High
  else if Qlt_le_dec score threshold_b then Medium
  else Low.

End Scoring.

(** ** Binary64 arithmetic

    Python's [float] is IEEE 754 binary64.  The operations are those of the
    library's executable specification [SpecFloat], at precision 53 and
    maximal exponent 1024, rounding to nearest with ties to even. *)

Module F64.

Definition prec : Z := 53.
Definition emax : Z := 1024.

Definition float : Type := spec_float.

(** An integer as a float ([float(12)], and the integers Python converts
    when an operation mixes [int] and [float]); exact below 2^53. *)
Definition of_Z (n : Z) : float := binary_normalize prec emax n 0 false.

(** A decimal literal: the float nearest to the fraction it denotes, here
    the correctly rounded quotient of two exactly represented integers. *)
Definition of_Q (q : Q) : float :=
  SFdiv prec emax (of_Z (Qnum q)) (of_Z (Zpos (Qden q))).

Definition mul : float -> float -> float := SFmul prec emax.
Definition sub : float -> float -> float := SFsub prec emax.

(** [x < y] and [x <= y]; both are false when an operand is not a number. *)
Definition ltb : float -> float -> bool := SFltb.


End F64.

(** ** [calculate_weighted_score] and [get_category_weight] in binary64

    The same two functions as in [Scoring], with every number a float as in
    the running program: the literals of the two tables are rounded to
    binary64, [12 * weight] and [score -= penalty] are the rounded product
    and difference.  Python's integers [100], [12], [8] and [0] enter the
    arithmetic as the floats of the same value; the result of the function
    is given as a float also where Python returns the integer [0] or [100]. *)

Module Scoring64.
Import Scoring.

Definition VENDOR_CATEGORY_WEIGHTS : list (string * F64.float) :=
  map (fun kv => (fst kv, F64.of_Q (snd kv))) Scoring.VENDOR_CATEGORY_WEIGHTS.

(** [d.get(key, default)] *)
Fixpoint dict_get (d : list (string * F64.float)) (key : string)
    (default : F64.float) : F64.float :=
  match d with
  | [] => default
  | (k, v) :: d' => if String.eqb k key then v else dict_get d' key default
  end.

(** [VENDOR_CATEGORY_WEIGHTS.get(category, 1.0)] *)
Definition weight_of (v : vendor) : F64.float :=
  dict_get VENDOR_CATEGORY_WEIGHTS (category_of v) (F64.of_Q 1).

(** The three branches under "Base penalty": [12 * weight], [8 * weight]
    and the integer [0]. *)
Definition penalty (v : vendor) : F64.float :=
  if Str.contains "US" (location v) then F64.mul (F64.of_Z 12) (weight_of v)
  else if Str.contains "GLOBAL" (location v)
  then F64.mul (F64.of_Z 8) (weight_of v)
  else F64.of_Z 0.

(** [score -= penalty] *)
Definition step (score : F64.float) (v : vendor) : F64.float :=
  F64.sub score (penalty v).

(** The value of [score] when the loop ends; it starts at [100]. *)
Definition running_total (vendors : list vendor) : F64.float :=
  fold_left step vendors (F64.of_Z 100).

(** Python's two-argument [min] and [max] return the first argument unless
    the second is strictly smaller (resp. larger). *)
Definition py_min (a b : F64.float) : F64.float :=
  if F64.ltb b a then b else a.
Definition py_max (a b : F64.float) : F64.float :=
  if F64.ltb a b then b else a.

(** [max(0, min(100, score))] *)
Definition clamp (score : F64.float) : F64.float :=
  py_max (F64.of_Z 0) (py_min (F64.of_Z 100) score).

Definition calculate_weighted_score (vendors : list vendor) : F64.float :=
  clamp (running_total vendors).

(** The constant that the branch taken for a location multiplies the weight
    by; the last branch sets the penalty to [0] without a product. *)
Definition base_penalty (loc : string) : F64.float :=
  if Str.contains "US" loc then F64.of_Z 12
  else if Str.contains "GLOBAL" loc then F64.of_Z 8
  else F64.of_Z 0.

(** [CATEGORY_WEIGHTS] and [get_category_weight] of part_004. *)
Definition CATEGORY_WEIGHTS : list (string * F64.float) :=
  map (fun kv => (fst kv, F64.of_Q (snd kv))) Scoring.CATEGORY_WEIGHTS.

Fixpoint first_weight (table : list (string * F64.float))
    (purpose_upper : string) : F64.float :=
  match table with
  | [] => F64.of_Q 1
  | (category, weight) :: table' =>
      if Str.contains (Str.upper category) purpose_upper then weight
      else first_weight table' purpose_upper
  end.

Definition get_category_weight (purpose : string) : F64.float :=
  first_weight CATEGORY_WEIGHTS (Str.upper purpose).

End Scoring64.

(** ** The Merge Engine *)

Module Merge.

Inductive detection_method : Type :=
| ai_extraction | resource_fingerprint | both.

(** The canonical vendor of section 3 of the specification. *)
Record vendor : Type := mk_vendor {
  name : string;
  purpose : string;
  location : string;
  risk : string;
  detectionMethod : detection_method
}.

(** A vendor as the oracle reports it. *)
Record oracle_vendor : Type := mk_oracle_vendor {
  o_name : string;
  o_purpose : string;
  o_location : string;
  o_risk : string
}.

(** The fields of a [DetectedService] that the merge reads. *)
Record detected_service : Type := mk_detected_service {
  displayName : string;
  jurisdiction : string;
  category : string;
  riskTier : string;
  domain : string
}.

(** Modelled from the spec: name comparison of the Merge Engine, which lives
    in backend/main.py and is not among the sources.  Section 4.4, step 1:
    trim and case-fold, for comparison only. *)
Definition normalize_name (s : string) : string := Str.lower (Str.trim s).

Definition same_name (a b : string) : bool :=
  String.eqb (normalize_name a) (normalize_name b).

Definition present (n : string) (canonical : list vendor) : bool :=
  existsb (fun v => same_name (name v) n) canonical.

Definition of_oracle (o : oracle_vendor) : vendor :=
  mk_vendor (o_name o) (o_purpose o) (o_location o) (o_risk o) ai_extraction.

Definition of_service (d : detected_service) : vendor :=
  mk_vendor (displayName d) (category d) (jurisdiction d) (riskTier d)
            resource_fingerprint.

(** Field-level fallback: the registry value only where the oracle left
    the sentinel. *)
Definition fallback (oracle_value registry_value : string) : string :=
  if String.eqb oracle_value "Unknown" then registry_value else oracle_value.

Definition mark_both (d : detected_service) (v : vendor) : vendor :=
  if same_name (name v) (displayName d)
  then mk_vendor (name v)
                 (fallback (purpose v) (category d))
                 (fallback (location v) (jurisdiction d))
                 (fallback (risk v) (riskTier d))
                 both
  else v.

(** Modelled from the spec: step 1 of section 4.4 of the Merge Engine
    (backend/main.py is not among the sources).  The canonical set is seeded
    from the oracle's vendors in order; it is keyed by normalised name and
    the vendor order is first-detected-wins (section 3), so a later oracle
    vendor whose normalised name is already present is not added. *)
Definition seed_step (canonical : list vendor) (o : oracle_vendor)
    : list vendor :=
  if present (o_name o) canonical then canonical
  else canonical ++ [of_oracle o].

(** Modelled from the spec: steps 2 and 3 of section 4.4 of the Merge Engine
    (backend/main.py is not among the sources).  A service whose normalised
    display name is present marks that entry [both] and fills its "Unknown"
    fields; otherwise a vendor built from the registry entry is appended. *)
Definition absorb_step (canonical : list vendor) (d : detected_service)
    : list vendor :=
  if present (displayName d) canonical then map (mark_both d) canonical
  else canonical ++ [of_service d].

(** Modelled from the spec: the Merge Engine of section 4.4 (backend/main.py
    is not among the sources): the canonical vendor sequence together with
    the detected services passed through unchanged. *)
Definition merge (oracle : list oracle_vendor)
    (services : list detected_service)
    : list vendor * list detected_service :=
  (fold_left absorb_step services (fold_left seed_step oracle []), services).

Definition normalized_names (canonical : list vendor) : list string :=
  map (fun v => normalize_name (name v)) canonical.

End Merge.

(** ** Concrete inputs used by the examples of Part II *)

Module Examples.
Import Resources.

(** A page of www.example.com that loads a script from the parent domain. *)
Definition parent_page : string :=
  "<script src='https://example.com/app.js'></script>".
Definition parent_base : string := "https://www.example.com/".

(** A page that loads two scripts from one external host. *)
Definition twice_page : string :=
  "<script src='https://cdn.example.net/a.js'></script>" ++
  "<script src='https://cdn.example.net/b.js'></script>".

(** A page with one reference of every kind the function looks for. *)
Definition mixed_page : string :=
  "<SCRIPT async src='https://js.stripe.com/v3/'></SCRIPT>" ++
  "<link rel='stylesheet' href='https://fonts.googleapis.com/css2.css?f=Inter'>" ++
  "<img src='https://www.example.com/logo.png'>" ++
  "<iframe src='https://widget.intercom.io/frame'></iframe>" ++
  "<script>fetch('https://www.example.com/api/me');" ++
  "axios.post('https://api.segment.com/v1/t')</script>".

Definition analyze (html base : string) : analysis :=
  analyze_embedded_resources py_findall py_findall_any
    py_urljoin_absolute py_netloc html base.

End Examples.

(** ** Auxiliary notions for the statements about regular expressions *)

Module RegexAux.
Import Regex.

(** Iterated derivative: the residual of [r] after the characters of [s]. *)
Fixpoint derivs (s : string) (r : regex) : regex :=
  match s with
  | EmptyString => r
  | String c s' => derivs s' (deriv c r)
  end.

(** A syntactic test for expressions without any word. *)
Fixpoint dead (r : regex) : bool :=
  match r with
  | Void => true
  | Eps => false
  | Cls _ => false
  | Cat r1 r2 => dead r1 || dead r2
  | Alt r1 r2 => dead r1 && dead r2
  | Star _ => false
  end.

End RegexAux.

(** ** Auxiliary notions for the statements about URL normalisation *)

Module UrlAux.
Import Regex.

(** The first character, if any, fails [p]. *)
Definition head_ok (p : ascii -> bool) (s : string) : bool :=
  match s with
  | EmptyString => true
  | String c _ => negb (p c)
  end.

(** The last character, if any, fails [p]. *)
Fixpoint tail_ok (p : ascii -> bool) (s : string) : bool :=
  match s with
  | EmptyString => true
  | String c EmptyString => negb (p c)
  | String _ s' => tail_ok p s'
  end.

(** No white space at either end and no slash at the end. *)
Definition clean (u : string) : bool :=
  head_ok Str.is_ws u && tail_ok Str.is_ws u && tail_ok Str.is_slash u.

(** What [UrlNormalizer.normalizeUrl] does once [url] has been trimmed and
    stripped of its trailing slashes. *)
Definition finish (url : string) : string :=
  if prefix_match UrlNormalizer.scheme_re url then
    if prefix_match UrlNormalizer.http_re url
    then UrlNormalizer.upgrade_http url else url
  else if Str.startsWith "//" url then "https:" ++ url
  else if UrlNormalizer.looks_like_host url then "https://" ++ url
  else url.

(** What [Hero.normalizeUrl] does once [url] has been trimmed. *)
Definition hero_finish (url : string) : string :=
  if prefix_match UrlNormalizer.scheme_re url then url
  else if Str.startsWith "//" url then "https:" ++ url
  else if prefix_match Hero.domain_re url then "https://" ++ url
  else if full_match Hero.label_re url then "https://" ++ url
  else if Str.startsWith "/" url then url
  else "https://" ++ url.

(** The trimmed inputs on which the two normalisers take branches with the
    same result: an https scheme, a protocol-relative reference, a host that
    part_000 recognises, or a path that starts with one slash. *)
Definition same_branch (t : string) : bool :=
  if prefix_match UrlNormalizer.scheme_re t
  then negb (prefix_match UrlNormalizer.http_re t)
  else UrlNormalizer.looks_like_host t || Str.startsWith "/" t.

(** The inputs on which the two normalisers are compared: the empty string,
    and the strings whose trimmed form is non-empty, ends in no slash and
    takes one of the branches of [same_branch]. *)
Definition comparable (input : string) : bool :=
  Str.is_empty input ||
  (let t := Str.trim input in
   negb (Str.is_empty t) && tail_ok Str.is_slash t && same_branch t).

(** The inputs of the upgrade contract.  A host label has 1 to 63 letters,
    digits or hyphens and no hyphen at either end; a bare domain is one or
    more labels and an alphabetic top-level domain of two letters or more,
    joined by dots; a path is empty or starts with a slash and holds no
    white space. *)
Definition is_ldh (c : ascii) : bool := Str.is_alnum c || Ascii.eqb c "-".

(** The characters of a host: letters, digits, hyphens and dots. *)
Definition is_host_char (c : ascii) : bool := is_ldh c || Ascii.eqb c ".".

Fixpoint inner_ok (rest : string) : bool :=
  match rest with
  | EmptyString => true
  | String d EmptyString => Str.is_alnum d
  | String d rest' => is_ldh d && inner_ok rest'
  end.

Definition label_ok (l : string) : bool :=
  match l with
  | EmptyString => false
  | String c rest =>
      Str.is_alnum c && inner_ok rest && (String.length rest <=? 62)%nat
  end.

Definition tld_ok (t : string) : bool :=
  (2 <=? String.length t)%nat && Str.forallb Str.is_alpha t.

Definition not_ws (c : ascii) : bool := negb (Str.is_ws c).

Definition path_ok (path : string) : bool :=
  match path with
  | EmptyString => true
  | String c _ => Ascii.eqb c "/" && Str.forallb not_ws path
  end.

Fixpoint dotted (labels : list string) : string :=
  match labels with
  | [] => EmptyString
  | l :: ls => l ++ "." ++ dotted ls
  end.

Definition host_of (labels : list string) (tld : string) : string :=
  dotted labels ++ tld.

Definition bare_domain (labels : list string) (tld path : string) : bool :=
  match labels with
  | [] => false
  | _ :: _ => List.forallb label_ok labels && tld_ok tld && path_ok path
  end.

End UrlAux.

(** ** The API address (src/unnamed/part_002) and the endpoint that
    [App.handleAnalyze] posts to (src/frontend/src/App.jsx) *)

Module Config.

(** [import.meta.env.VITE_API_URL || 'http://localhost:8000']: the default is
    taken when the variable is not set or is the empty string. *)
Definition raw (env : option string) : string :=
  match env with
  | Some v => if Str.is_empty v then "http://localhost:8000" else v
  | None => "http://localhost:8000"
  end.

(** "API_URL = raw.replace(/\/+$/, '')" *)
Definition API_URL (env : option string) : string :=
  Str.strip_trailing_slashes (raw env).

(** [baseUrl] and [analyzeUrl] of [handleAnalyze]. *)
Definition baseUrl (env : option string) : string :=
  Str.strip_trailing_slashes (API_URL env).
Definition analyzeUrl (env : option string) : string :=
  baseUrl env ++ "/analyze".

End Config.

(** ** [locationColor] of the dashboard helpers
    (src/frontend/src/components/Loading.jsx) *)

Module Dashboard.

Inductive color : Type := Red | Green | Gray.

(** The class string each branch returns. *)
Definition class_of (c : color) : string :=
  match c with
  | Red => "bg-red-50 border-red-400 text-red-900"
  | Green => "bg-green-50 border-green-400 text-green-900"
  | Gray => "bg-gray-50 border-gray-300 text-gray-900"
  end.

(** The two tests on the upper-cased text [u]. *)
Definition color_of_upper (u : string) : color :=
  if Str.contains "US" u || Str.contains "USA" u ||
     Str.contains "UNITED STATES" u
  then Red
  else if Str.contains "EU" u || Str.contains "EUROPE" u ||
          Str.contains "IRELAND" u || Str.contains "GERMANY" u ||
          Str.contains "FRANCE" u || Str.contains "NETHERLANDS" u ||
          Str.contains "ESTONIA" u
  then Green
  else Gray.

(** [locationColor(loc)]; [None] is a missing ([null], [undefined])
    location, which [(loc || '')] turns into the empty string. *)
Definition locationColor (loc : option string) : color :=
  let u := Str.upper (match loc with Some l => l | None => "" end) in
  color_of_upper u.

End Dashboard.

(** ** [infer_cookie_purpose] (src/unnamed/part_005, Level 8) *)

Module Cookies.

Definition analytics_patterns : list string :=
  ["_ga"; "_gid"; "utm_"; "_fbp"; "mp_"].
Definition support_patterns : list string :=
  ["intercom"; "zendesk"; "drift"].

(** [any(pattern in text for pattern in patterns)] *)
Definition any_in (patterns : list string) (text : string) : bool :=
  existsb (fun pattern => Str.contains pattern text) patterns.

Definition infer_cookie_purpose (cookie_name : string) : string :=
  if any_in analytics_patterns (Str.lower cookie_name)
  then "Analytics/Tracking"
  else if any_in support_patterns (Str.lower cookie_name)
  then "Customer Support"
  else "Unknown".

End Cookies.

(** ** [find_privacy_policy_url] (src/unnamed/part_004, Quick Win 3) *)

Module Privacy.

Definition common_paths : list string :=
  ["/privacy"; "/privacy-policy"; "/legal/privacy"; "/privacy.html";
   "/en/privacy"].

Section WithNetwork.

(** [urljoin] of [urllib.parse], and [requests.head(url, timeout=5)]:
    [Some status] is the status code of the response, [None] an exception
    (time-out, connection error, ...). *)
Variable urljoin : string -> string -> string.
Variable head : string -> option nat.

(** The loop over the paths: the first URL answered with 200 is returned;
    any other answer and any exception moves on to the next path. *)
Fixpoint first_found (base_url : string) (paths : list string)
    : option string :=
  match paths with
  | [] => None
  | path :: paths' =>
      let url := urljoin base_url path in
      match head url with
      | Some status =>
          if (status =? 200)%nat then Some url
          else first_found base_url paths'
      | None => first_found base_url paths'
      end
  end.

(** [None] is Python's [None]. *)
Definition find_privacy_policy_url (base_url : string) : option string :=
  first_found base_url common_paths.

End WithNetwork.

End Privacy.

(** ** Reading a known-service record as a vendor *)

Module ServiceScore.

(** [calculate_weighted_score] reads the keys "category" and "location" of
    each element; the records of [KNOWN_SERVICES] carry both. *)
Definition as_vendor (info : KnownServices.service_info) : Scoring.vendor :=
  Scoring.mk_vendor (Some (KnownServices.category info))
                    (KnownServices.location info).

Definition score_of_services (infos : list KnownServices.service_info) : Q :=
  Scoring.calculate_weighted_score (map as_vendor infos).

End ServiceScore.

(** ** Auxiliary notions for the further properties *)

Module MoreAux.

(** All characters are ASCII (below 128): on such strings the case
    conversions of the model are those of both host languages. *)
Definition ascii_only (s : string) : bool :=
  Str.forallb (fun c => (nat_of_ascii c <? 128)%nat) s.

Definition has_upper (s : string) : bool :=
  negb (Str.forallb (fun c => negb (Str.is_upper c)) s).

(** The closed form of the two nested loops of [match_known_services]. *)
Definition matches_of (known : KnownServices.registry) (domain : string)
    : list KnownServices.service_info :=
  map snd (filter (fun e => Str.contains (fst e) domain) known).

(** The entries the inline-call loop appends for one pattern. *)
Definition api_entries (netloc : string -> string)
    (ms : list Resources.found) : list Resources.resource :=
  map (fun m => Resources.mk_resource (Resources.url_of_match m)
                  (netloc (Resources.url_of_match m)) None)
      (filter (fun m => Str.startsWith "http" (Resources.url_of_match m)) ms).


End MoreAux.

(* ===================================================================== *)
(** * Part II: properties                                                  *)
(* ===================================================================== *)

(** ** Scoring *)

Section ScoringFacts.
Import Scoring.
Local Open Scope Q_scope.

Lemma clamp_bounds (t : Q) : 0 <= clamp t /\ clamp t <= 100.
Proof.
  unfold clamp, py_max, py_min.
  destruct (Qlt_le_dec t 100) as [Hlt | Hge];
    destruct (Qlt_le_dec 0 _) as [Hpos | Hneg]; split; lra.
Qed.

Lemma clamp_below (t : Q) : t <= 0 -> clamp t == 0.
Proof.
  intros Ht. unfold clamp, py_max, py_min.
  destruct (Qlt_le_dec t 100); destruct (Qlt_le_dec 0 _); lra.
Qed.

Lemma clamp_above (t : Q) : 100 <= t -> clamp t == 100.
Proof.
  intros Ht. unfold clamp, py_max, py_min.
  destruct (Qlt_le_dec t 100); destruct (Qlt_le_dec 0 _); lra.
Qed.

Lemma clamp_inside (t : Q) : 0 <= t <= 100 -> clamp t == t.
Proof.
  intros Ht. unfold clamp, py_max, py_min.
  destruct (Qlt_le_dec t 100); destruct (Qlt_le_dec 0 _); lra.
Qed.

Lemma fold_step_closed (vendors : list vendor) :
  forall score, fold_left step vendors score == score - total_penalty vendors.
Proof.
  induction vendors as [| v vs IH]; intros score; simpl.
  - ring.
  - rewrite IH. unfold step. ring.
Qed.

Lemma running_total_closed (vendors : list vendor) :
  running_total vendors == 100 - total_penalty vendors.
Proof. apply fold_step_closed. Qed.

Lemma dict_get_bounds (lo hi : Q) (d : list (string * Q)) :
  Forall (fun kv => lo <= snd kv /\ snd kv <= hi) d ->
  forall key default,
    lo <= default /\ default <= hi ->
    lo <= dict_get d key default /\ dict_get d key default <= hi.
Proof.
  induction 1 as [| [k w] d' Hhd Htl IH]; intros key default Hdef; simpl.
  - exact Hdef.
  - destruct (String.eqb k key); [exact Hhd | now apply IH].
Qed.

Lemma first_weight_bounds (lo hi : Q) (table : list (string * Q)) :
  Forall (fun kv => lo <= snd kv /\ snd kv <= hi) table ->
  lo <= 1 /\ 1 <= hi ->
  forall purpose_upper,
    lo <= first_weight table purpose_upper /\
    first_weight table purpose_upper <= hi.
Proof.
  induction 1 as [| [k w] table' Hhd Htl IH]; intros Hone p; simpl.
  - exact Hone.
  - destruct (Str.contains (Str.upper k) p); [exact Hhd | now apply IH].
Qed.

Lemma vendor_weights_in_range :
  Forall (fun kv => 0.6 <= snd kv /\ snd kv <= 1.5) VENDOR_CATEGORY_WEIGHTS.
Proof. unfold VENDOR_CATEGORY_WEIGHTS. repeat constructor; simpl; lra. Qed.

Lemma category_weights_in_range :
  Forall (fun kv => 0.6 <= snd kv /\ snd kv <= 1.5) CATEGORY_WEIGHTS.
Proof. unfold CATEGORY_WEIGHTS. repeat constructor; simpl; lra. Qed.

Lemma weight_of_bounds (v : vendor) : 0.6 <= weight_of v /\ weight_of v <= 1.5.
Proof.
  unfold weight_of. apply dict_get_bounds.
  - exact vendor_weights_in_range.
  - split; lra.
Qed.

Lemma penalty_nonneg (v : vendor) : 0 <= penalty v.
Proof.
  unfold penalty, base_penalty.
  destruct (weight_of_bounds v) as [Hlo _].
  destruct (Str.contains "US" (location v));
    [| destruct (Str.contains "GLOBAL" (location v))]; nra.
Qed.

Lemma total_penalty_nonneg (vendors : list vendor) : 0 <= total_penalty vendors.
Proof.
  induction vendors as [| v vs IH]; simpl; [lra |].
  pose proof (penalty_nonneg v). lra.
Qed.

Lemma loop_computes (vendors : list vendor) :
  forall score, loop score vendors (fold_left step vendors score).
Proof.
  induction vendors as [| v vs IH]; intros score; simpl.
  - constructor.
  - constructor. apply IH.
Qed.

Lemma loop_functional (vendors : list vendor) :
  forall score f1 f2,
    loop score vendors f1 -> loop score vendors f2 -> f1 = f2.
Proof.
  induction vendors as [| v vs IH]; intros score f1 f2 H1 H2;
    inversion H1; subst; inversion H2; subst.
  - reflexivity.
  - eapply IH; eassumption.
Qed.

(** C4: the scoring run is a function of the vendor list: the loop always
    produces a value, any two runs over the same vendors produce the same
    score, and with it the same risk level for any pair of thresholds. *)
Theorem scoring_is_deterministic :
  forall (threshold_a threshold_b : Q) (vendors : list vendor),
    returns vendors (calculate_weighted_score vendors) /\
    (forall s1 s2 : Q,
       returns vendors s1 -> returns vendors s2 ->
       s1 = s2 /\
       risk_level threshold_a threshold_b s1 =
       risk_level threshold_a threshold_b s2).
Proof.
  intros a b vendors. split.
  - constructor. apply loop_computes.
  - intros s1 s2 H1 H2. inversion H1 as [vs1 f1 L1]; subst.
    inversion H2 as [vs2 f2 L2]; subst.
    assert (f1 = f2) by (eapply loop_functional; eassumption).
    subst. split; reflexivity.
Qed.

End ScoringFacts.

(** ** Scoring in binary64 *)

Section Scoring64Facts.
Import Scoring Scoring64.






















End Scoring64Facts.

(** ** The Merge Engine *)

Section MergeFacts.
Import Merge.

Lemma present_false_not_in (n : string) (canonical : list vendor) :
  present n canonical = false ->
  ~ In (normalize_name n) (normalized_names canonical).
Proof.
  unfold present, normalized_names. intros Hp Hin.
  apply in_map_iff in Hin. destruct Hin as [v [Hv Hin]].
  assert (existsb (fun v => same_name (name v) n) canonical = true) as Hex.
  { apply existsb_exists. exists v. split; [exact Hin |].
    unfold same_name. rewrite Hv. apply String.eqb_refl. }
  congruence.
Qed.

Lemma mark_both_keeps_name (d : detected_service) (v : vendor) :
  name (mark_both d v) = name v.
Proof. unfold mark_both. destruct (same_name _ _); reflexivity. Qed.

Lemma mark_both_keeps_names (d : detected_service) (canonical : list vendor) :
  normalized_names (map (mark_both d) canonical) = normalized_names canonical.
Proof.
  unfold normalized_names. rewrite map_map. apply map_ext.
  intros v. now rewrite mark_both_keeps_name.
Qed.

Lemma names_snoc (canonical : list vendor) (v : vendor) :
  normalized_names (canonical ++ [v]) =
  normalized_names canonical ++ [normalize_name (name v)].
Proof. unfold normalized_names. now rewrite map_app. Qed.

Lemma NoDup_snoc (A : Type) (l : list A) (x : A) :
  NoDup l -> ~ In x l -> NoDup (l ++ [x]).
Proof.
  induction 1 as [| y l' Hy Hl IH]; intros Hx; simpl.
  - constructor; [intros [] | constructor].
  - constructor.
    + rewrite in_app_iff. intros [Hin | [Heq | []]]; [now apply Hy |].
      apply Hx. now left.
    + apply IH. intros Hin. apply Hx. now right.
Qed.

Lemma seed_step_unique (canonical : list vendor) (o : oracle_vendor) :
  NoDup (normalized_names canonical) ->
  NoDup (normalized_names (seed_step canonical o)).
Proof.
  intros Hc. unfold seed_step.
  destruct (present (o_name o) canonical) eqn:Hp; [exact Hc |].
  rewrite names_snoc. apply NoDup_snoc; [exact Hc |].
  now apply present_false_not_in.
Qed.

Lemma absorb_step_unique (canonical : list vendor) (d : detected_service) :
  NoDup (normalized_names canonical) ->
  NoDup (normalized_names (absorb_step canonical d)).
Proof.
  intros Hc. unfold absorb_step.
  destruct (present (displayName d) canonical) eqn:Hp.
  - now rewrite mark_both_keeps_names.
  - rewrite names_snoc. apply NoDup_snoc; [exact Hc |].
    now apply present_false_not_in.
Qed.

Lemma seed_unique (oracle : list oracle_vendor) :
  forall canonical,
    NoDup (normalized_names canonical) ->
    NoDup (normalized_names (fold_left seed_step oracle canonical)).
Proof.
  induction oracle as [| o os IH]; intros canonical Hc; simpl.
  - exact Hc.
  - apply IH. now apply seed_step_unique.
Qed.

Lemma absorb_unique (services : list detected_service) :
  forall canonical,
    NoDup (normalized_names canonical) ->
    NoDup (normalized_names (fold_left absorb_step services canonical)).
Proof.
  induction services as [| d ds IH]; intros canonical Hc; simpl.
  - exact Hc.
  - apply IH. now apply absorb_step_unique.
Qed.

(** C1: in the vendor sequence the Merge Engine produces, the normalised
    (trimmed, case-folded) names are pairwise distinct, whatever the oracle
    vendors and the detected services are; the detected services are passed
    through unchanged; and absorbing the detected services keeps the names
    distinct from any seed whose names are distinct. *)
Theorem merged_vendor_names_are_unique :
  forall (oracle : list oracle_vendor) (services : list detected_service),
    NoDup (normalized_names (fst (merge oracle services))) /\
    snd (merge oracle services) = services /\
    (forall canonical : list vendor,
       NoDup (normalized_names canonical) ->
       NoDup (normalized_names (fold_left absorb_step services canonical))).
Proof.
  intros oracle services. split; [| split; [reflexivity |]].
  - unfold merge. simpl. apply absorb_unique. apply seed_unique. constructor.
  - apply absorb_unique.
Qed.

End MergeFacts.

(** ** Known services *)

Section KnownServicesFacts.
Import KnownServices.

Lemma records_named_app (n : string) (a b : list service_info) :
  records_named n (a ++ b) = records_named n a + records_named n b.
Proof. unfold records_named. now rewrite filter_app, length_app. Qed.

Lemma inner_loop_count (n domain : string) (known : registry) :
  forall detected,
    records_named n (fold_left (match_entry domain) known detected) =
    records_named n detected + hits known n domain.
Proof.
  induction known as [| [k info] known' IH]; intros detected; simpl.
  - unfold hits. simpl. lia.
  - rewrite IH. unfold hits. simpl.
    destruct (Str.contains k domain); simpl.
    + rewrite records_named_app. unfold records_named at 2. simpl.
      destruct (has_name n info); simpl; lia.
    + lia.
Qed.

Lemma outer_loop_count (n : string) (known : registry) (domains : list string) :
  forall detected,
    records_named n
      (fold_left (fun acc d => fold_left (match_entry d) known acc)
                 domains detected) =
    records_named n detected + total_hits known n domains.
Proof.
  induction domains as [| d ds IH]; intros detected; simpl.
  - lia.
  - rewrite IH, inner_loop_count. lia.
Qed.

Lemma detect_inner (html_lower category : string)
    (entries : list (string * json_info)) :
  forall detected,
    map d_domain (fold_left (detect_entry html_lower category) entries detected) =
    map d_domain detected ++
    filter (fun k => Str.contains k html_lower) (map fst entries).
Proof.
  induction entries as [| [k info] entries' IH]; intros detected; simpl.
  - now rewrite app_nil_r.
  - rewrite IH. destruct (Str.contains k html_lower); simpl.
    + rewrite map_app. simpl. now rewrite <- app_assoc.
    + reflexivity.
Qed.

Lemma detect_outer (html_lower : string) (known : json_registry) :
  forall detected,
    map d_domain
      (fold_left
         (fun acc group =>
            fold_left (detect_entry html_lower (fst group)) (snd group) acc)
         known detected) =
    map d_domain detected ++
    filter (fun k => Str.contains k html_lower)
           (flat_map (fun group => map fst (snd group)) known).
Proof.
  induction known as [| g known' IH]; intros detected; simpl.
  - now rewrite app_nil_r.
  - rewrite IH, detect_inner, filter_app. now rewrite app_assoc.
Qed.

(** C5, as the code has it: [match_known_services] appends one record per
    pair of a hostname of the input list and a registry entry whose key
    occurs in it, so the number of records carrying a display name is the
    number of such pairs over the whole list (one only when there is one
    pair); [detect_known_services], which scans the markup once, yields the
    matching registry keys once each, in registry order. *)
Theorem matcher_emits_one_record_per_hit :
  forall (known : registry) (domains : list string) (n : string)
         (json : json_registry) (html : string),
    records_named n (match_services known domains) =
      total_hits known n domains /\
    map d_domain (detect_known_services json html) =
      filter (fun k => Str.contains k (Str.lower html))
             (flat_map (fun group => map fst (snd group)) json).
Proof.
  intros known domains n json html. split.
  - unfold match_services. now rewrite outer_loop_count.
  - unfold detect_known_services. now rewrite detect_outer.
Qed.

(** C5 fails as stated: two hostnames of one service give two records. *)
Lemma stripe_is_reported_twice :
  records_named "Stripe"
    (match_known_services ["js.stripe.com"; "checkout.stripe.com"]) = 2.
Proof. vm_compute. reflexivity. Qed.

End KnownServicesFacts.

(** ** Resource extraction *)

Section ResourcesFacts.
Import Resources.

Variable findall : pattern -> string -> list string.
Variable findall_any : pattern -> string -> list found.
Variable urljoin : string -> string -> string.
Variable netloc : string -> string.

Lemma prefix_refl (s : string) : String.prefix s s = true.
Proof.
  induction s as [| c s IH]; simpl; [reflexivity |].
  destruct (ascii_dec c c) as [_ | Hne]; [exact IH | now elim Hne].
Qed.

Lemma contains_refl (s : string) : Str.contains s s = true.
Proof.
  destruct s as [| c s]; [reflexivity |].
  cbn [Str.contains]. now rewrite prefix_refl.
Qed.

Lemma keeps_iff (base d : string) :
  keeps netloc base d = true <->
  d <> "" /\ Str.contains d (netloc base) = false.
Proof.
  unfold keeps. rewrite andb_true_iff, !negb_true_iff. split.
  - intros [He Hc]. split; [| exact Hc]. intros ->. discriminate.
  - intros [He Hc]. split; [| exact Hc].
    destruct d; [exfalso; apply He; reflexivity | reflexivity].
Qed.

Lemma keeps_differs (base d : string) :
  keeps netloc base d = true -> d <> netloc base.
Proof.
  intros Hk Heq. apply keeps_iff in Hk. destruct Hk as [_ Hc].
  rewrite Heq, contains_refl in Hc. discriminate.
Qed.

Lemma keeps_same_site (base : string) : keeps netloc base (netloc base) = false.
Proof.
  unfold keeps. rewrite contains_refl. simpl. apply andb_false_r.
Qed.

Lemma tag_fold_closed (base : string) (nt : option string) (refs : list string) :
  forall acc,
    fold_left (tag_step urljoin netloc base nt) refs acc =
    acc ++ kept_refs urljoin netloc base nt refs.
Proof.
  induction refs as [| ref refs' IH]; intros acc; simpl.
  - unfold kept_refs. simpl. now rewrite app_nil_r.
  - rewrite IH. unfold tag_step, kept_refs. simpl.
    destruct (keeps netloc base (netloc (urljoin base ref))); simpl.
    + now rewrite <- app_assoc.
    + reflexivity.
Qed.

Lemma tag_loop_closed (base : string) (nt : option string) (refs : list string) :
  tag_loop urljoin netloc base nt refs = kept_refs urljoin netloc base nt refs.
Proof. unfold tag_loop. now rewrite tag_fold_closed. Qed.

Lemma kept_refs_length (base : string) (nt : option string) (refs : list string) :
  length (kept_refs urljoin netloc base nt refs) =
  length (filter (fun ref => keeps netloc base (netloc (urljoin base ref))) refs).
Proof. unfold kept_refs. apply length_map. Qed.

Lemma collect_nodup (items : list resource) :
  forall s : set string,
    NoDup s ->
    NoDup (fold_left (fun s item => set_add string_dec (domain item) s) items s).
Proof.
  induction items as [| item items' IH]; intros s Hs; simpl.
  - exact Hs.
  - apply IH. now apply set_add_nodup.
Qed.

Lemma collect_in (items : list resource) (d : string) :
  forall s : set string,
    In d (fold_left (fun s item => set_add string_dec (domain item) s) items s)
    <-> In d s \/ exists item, In item items /\ domain item = d.
Proof.
  induction items as [| item items' IH]; intros s; simpl.
  - split; [now left | intros [H | [item [[] _]]]; exact H].
  - rewrite IH, set_add_iff. split.
    + intros [[Heq | Hin] | [it [Hit Hd]]].
      * right. exists item. split; [now left | now symmetry].
      * now left.
      * right. exists it. split; [now right | exact Hd].
    + intros [Hin | [it [[Heq | Hit] Hd]]].
      * left. now right.
      * subst it. left. left. now symmetry.
      * right. exists it. now split.
Qed.

(** C6, as the code has it: in the five tag loops (scripts, stylesheets,
    images, frames, fonts) a reference is kept exactly when the host of the
    resolved URL is non-empty and does not occur inside the host of the base
    URL; so a kept host always differs from the base host, and a reference to
    the base host itself is always dropped. *)
Theorem tag_reference_kept_iff_host_outside_base_host :
  forall html base : string,
    let out :=
      resources_by_type
        (analyze_embedded_resources findall findall_any urljoin netloc
           html base) in
    external_scripts out =
      kept_refs urljoin netloc base None (findall script_pattern html) /\
    external_stylesheets out =
      kept_refs urljoin netloc base None (findall css_pattern html) /\
    external_images out =
      kept_refs urljoin netloc base None (findall img_pattern html) /\
    iframes out =
      kept_refs urljoin netloc base
        (Some "Likely widget (chat, payment, etc.)")
        (findall iframe_pattern html) /\
    external_fonts out =
      kept_refs urljoin netloc base None
        (findall font_pattern html ++ findall font_link_pattern html) /\
    (forall d : string,
       keeps netloc base d = true <->
       d <> "" /\ Str.contains d (netloc base) = false) /\
    (forall d : string, keeps netloc base d = true -> d <> netloc base) /\
    keeps netloc base (netloc base) = false.
Proof.
  intros html base out. subst out. unfold analyze_embedded_resources. simpl.
  rewrite !tag_loop_closed.
  repeat (split; [reflexivity |]).
  split; [apply keeps_iff |].
  split; [apply keeps_differs | apply keeps_same_site].
Qed.

(** C7, as the code has it: hostnames are deduplicated in [unique_domains]
    only, and by hostname alone: that list has no repetition and holds
    exactly the hosts of the entries of all kinds; the per-kind lists hold
    one entry for every reference that passes the test, repeats included,
    and [total_external_resources] counts them all. *)
Theorem unique_domains_holds_each_host_once :
  forall html base : string,
    let out :=
      analyze_embedded_resources findall findall_any urljoin netloc html base in
    let passes := fun ref => keeps netloc base (netloc (urljoin base ref)) in
    NoDup (unique_domains out) /\
    (forall d : string,
       In d (unique_domains out) <->
       exists item,
         In item (all_items (resources_by_type out)) /\ domain item = d) /\
    length (external_scripts (resources_by_type out)) =
      length (filter passes (findall script_pattern html)) /\
    length (external_stylesheets (resources_by_type out)) =
      length (filter passes (findall css_pattern html)) /\
    length (external_images (resources_by_type out)) =
      length (filter passes (findall img_pattern html)) /\
    length (iframes (resources_by_type out)) =
      length (filter passes (findall iframe_pattern html)) /\
    length (external_fonts (resources_by_type out)) =
      length (filter passes
                (findall font_pattern html ++ findall font_link_pattern html)) /\
    total_external_resources out = length (all_items (resources_by_type out)).
Proof.
  intros html base out passes. subst out passes.
  unfold analyze_embedded_resources. simpl.
  split; [| split].
  - unfold collect_domains. apply collect_nodup. constructor.
  - intros d. unfold collect_domains. rewrite collect_in. simpl.
    split; [intros [[] | H]; exact H | intros H; now right].
  - rewrite !tag_loop_closed, !kept_refs_length. repeat split; reflexivity.
Qed.

End ResourcesFacts.

(** C6 fails as stated: a script served from the parent domain example.com
    of the base host www.example.com has a different host, yet it is dropped
    and the page reports no external domain. *)
Lemma parent_domain_script_is_dropped :
  Resources.py_netloc "https://example.com/app.js" <>
    Resources.py_netloc Examples.parent_base /\
  Resources.external_scripts
    (Resources.resources_by_type
       (Examples.analyze Examples.parent_page Examples.parent_base)) = [] /\
  Resources.unique_domains
    (Examples.analyze Examples.parent_page Examples.parent_base) = [].
Proof.
  split; [| split].
  - vm_compute. discriminate.
  - vm_compute. reflexivity.
  - vm_compute. reflexivity.
Qed.

(** C7 fails as stated: two script references to one external host give two
    entries of the same kind with the same hostname. *)
Lemma same_host_script_is_listed_twice :
  map Resources.domain
    (Resources.external_scripts
       (Resources.resources_by_type
          (Examples.analyze Examples.twice_page Examples.parent_base))) =
  ["cdn.example.net"; "cdn.example.net"].
Proof. vm_compute. reflexivity. Qed.

(** ** Regular expressions: the derivative matcher decides membership *)

Section RegexFacts.
Import Regex RegexAux.

Lemma app_empty_inv (a b : string) : (a ++ b)%string = "" -> a = "" /\ b = "".
Proof. destruct a; simpl; intros H; [now split | discriminate]. Qed.

Lemma string_app_nil_r (a : string) : (a ++ "")%string = a.
Proof. induction a as [| c a IH]; simpl; [reflexivity | now rewrite IH]. Qed.

Lemma string_app_assoc (a b c : string) :
  ((a ++ b) ++ c)%string = (a ++ (b ++ c))%string.
Proof. induction a as [| x a IH]; simpl; [reflexivity | now rewrite IH]. Qed.

Lemma string_length_app (a b : string) :
  String.length (a ++ b) = String.length a + String.length b.
Proof. induction a as [| x a IH]; simpl; [reflexivity | now rewrite IH]. Qed.

Lemma matches_empty_nullable (r : regex) (s : string) :
  matches r s -> s = "" -> nullable r = true.
Proof.
  induction 1 as [| p c Hp | r1 r2 s1 s2 H1 IH1 H2 IH2 | r1 r2 s H IH
                 | r1 r2 s H IH | r | r s1 s2 H1 IH1 H2 IH2];
    intros E; simpl; try reflexivity; try discriminate.
  - apply app_empty_inv in E. destruct E as [E1 E2].
    now rewrite IH1, IH2.
  - now rewrite IH.
  - rewrite IH by exact E. apply orb_true_r.
Qed.

Lemma nullable_matches_empty (r : regex) : nullable r = true -> matches r "".
Proof.
  induction r as [| | p | r1 IH1 r2 IH2 | r1 IH1 r2 IH2 | r IH]; simpl; intros H;
    try discriminate.
  - constructor.
  - apply andb_true_iff in H. destruct H as [H1 H2].
    change "" with ("" ++ "")%string. constructor; auto.
  - apply orb_true_iff in H. destruct H as [H | H];
      [apply MAltL | apply MAltR]; auto.
  - constructor.
Qed.

Lemma deriv_sound (r : regex) (c : ascii) :
  forall s, matches (deriv c r) s -> matches r (String c s).
Proof.
  induction r as [| | p | r1 IH1 r2 IH2 | r1 IH1 r2 IH2 | r IH];
    simpl; intros s H.
  - inversion H.
  - inversion H.
  - destruct (p c) eqn:Hp; inversion H; subst. now constructor.
  - destruct (nullable r1) eqn:Hn.
    + inversion H as [| | | ? ? ? HL | ? ? ? HR | |]; subst.
      * inversion HL as [| | ? ? s1 s2 Ha Hb | | | |]; subst.
        change (String c (s1 ++ s2)) with (String c s1 ++ s2)%string.
        constructor; auto.
      * change (String c s) with ("" ++ String c s)%string.
        constructor; [now apply nullable_matches_empty | auto].
    + inversion H as [| | ? ? s1 s2 Ha Hb | | | |]; subst.
      change (String c (s1 ++ s2)) with (String c s1 ++ s2)%string.
      constructor; auto.
  - inversion H; subst; [apply MAltL | apply MAltR]; auto.
  - inversion H as [| | ? ? s1 s2 Ha Hb | | | |]; subst.
    change (String c (s1 ++ s2)) with (String c s1 ++ s2)%string.
    constructor; auto.
Qed.

Lemma deriv_complete (r : regex) (w : string) :
  matches r w -> forall c s, w = String c s -> matches (deriv c r) s.
Proof.
  induction 1 as [| p c' Hp | r1 r2 s1 s2 H1 IH1 H2 IH2 | r1 r2 s' H IH
                 | r1 r2 s' H IH | r | r s1 s2 H1 IH1 H2 IH2];
    intros c s E; simpl; try discriminate.
  - injection E as -> <-. rewrite Hp. constructor.
  - destruct s1 as [| c1 s1'].
    + simpl in E. subst s2.
      rewrite (matches_empty_nullable _ _ H1 eq_refl).
      apply MAltR. now apply IH2.
    + simpl in E. injection E as -> <-.
      destruct (nullable r1).
      * apply MAltL. constructor; [now apply IH1 | exact H2].
      * constructor; [now apply IH1 | exact H2].
  - apply MAltL. now apply IH.
  - apply MAltR. now apply IH.
  - destruct s1 as [| c1 s1'].
    + simpl in E. now apply IH2.
    + simpl in E. injection E as -> <-.
      constructor; [now apply IH1 | exact H2].
Qed.

Theorem full_match_correct (s : string) :
  forall r, full_match r s = true <-> matches r s.
Proof.
  induction s as [| c s IH]; intros r; simpl.
  - split; [apply nullable_matches_empty |].
    intros H. now apply (matches_empty_nullable r "").
  - rewrite IH. split; [apply deriv_sound |].
    intros H. now apply (deriv_complete r (String c s)).
Qed.

Lemma full_match_app (a : string) :
  forall r b, full_match r (a ++ b) = full_match (derivs a r) b.
Proof. induction a as [| c a IH]; intros r b; simpl; [reflexivity | apply IH]. Qed.

Lemma dead_not_nullable (r : regex) : dead r = true -> nullable r = false.
Proof.
  induction r as [| | p | r1 IH1 r2 IH2 | r1 IH1 r2 IH2 | r IH]; simpl;
    intros H; try reflexivity; try discriminate.
  - apply orb_true_iff in H. destruct H as [H | H].
    + now rewrite IH1.
    + rewrite IH2 by exact H. apply andb_false_r.
  - apply andb_true_iff in H. destruct H as [H1 H2]. now rewrite IH1, IH2.
Qed.

Lemma dead_deriv (c : ascii) (r : regex) : dead r = true -> dead (deriv c r) = true.
Proof.
  induction r as [| | p | r1 IH1 r2 IH2 | r1 IH1 r2 IH2 | r IH]; simpl;
    intros H; try reflexivity; try discriminate.
  - apply orb_true_iff in H.
    destruct (nullable r1) eqn:Hn; simpl.
    + destruct H as [H | H].
      * rewrite (dead_not_nullable r1 H) in Hn. discriminate.
      * rewrite H, IH2 by exact H. now rewrite orb_true_r.
    + destruct H as [H | H].
      * now rewrite IH1.
      * rewrite H. apply orb_true_r.
  - apply andb_true_iff in H. destruct H as [H1 H2]. now rewrite IH1, IH2.
Qed.

Lemma dead_no_match (s : string) :
  forall r, dead r = true -> full_match r s = false.
Proof.
  induction s as [| c s IH]; intros r H; simpl.
  - now apply dead_not_nullable.
  - apply IH. now apply dead_deriv.
Qed.

Lemma star_any_all (s : string) : matches (Star any_char) s.
Proof.
  induction s as [| c s IH]; [constructor |].
  change (String c s) with (String c "" ++ s)%string.
  constructor; [now constructor | exact IH].
Qed.

Lemma prefix_match_intro (r : regex) (a b : string) :
  matches r a -> prefix_match r (a ++ b) = true.
Proof.
  intros H. unfold prefix_match. apply full_match_correct.
  constructor; [exact H | apply star_any_all].
Qed.

Lemma cat_inv (r1 r2 : regex) (s : string) :
  matches (Cat r1 r2) s ->
  exists s1 s2, s = (s1 ++ s2)%string /\ matches r1 s1 /\ matches r2 s2.
Proof.
  intros H. inversion H as [| | ? ? s1 s2 H1 H2 | | | |]; subst.
  now exists s1, s2.
Qed.

Lemma prefix_match_elim (r : regex) (s : string) :
  prefix_match r s = true ->
  exists a b, s = (a ++ b)%string /\ matches r a.
Proof.
  unfold prefix_match. intros H. apply full_match_correct in H.
  inversion H as [| | ? ? a b Ha Hb | | | |]; subst. now exists a, b.
Qed.

End RegexFacts.

(** ** Strings: trimming and stripping *)

Section StrFacts.
Import Str UrlAux.

Variable p : ascii -> bool.

Lemma drop_start_length (s : string) :
  String.length (drop_start p s) <= String.length s.
Proof.
  induction s as [| c s IH]; simpl; [lia |].
  destruct (p c); simpl; lia.
Qed.

Lemma drop_start_id (s : string) : head_ok p s = true -> drop_start p s = s.
Proof.
  destruct s as [| c s]; simpl; [reflexivity |].
  intros H. apply negb_true_iff in H. now rewrite H.
Qed.

Lemma drop_start_head (s : string) : head_ok p (drop_start p s) = true.
Proof.
  induction s as [| c s IH]; simpl; [reflexivity |].
  destruct (p c) eqn:Hc; [exact IH |]. simpl. now rewrite Hc.
Qed.

Lemma drop_end_id_iff (s : string) : drop_end p s = s <-> tail_ok p s = true.
Proof.
  induction s as [| c s IH]; [simpl; tauto |].
  destruct s as [| d s'].
  - simpl. destruct (p c); simpl; split; congruence.
  - change (tail_ok p (String c (String d s'))) with (tail_ok p (String d s')).
    change (drop_end p (String c (String d s')))
      with (if is_empty (drop_end p (String d s')) && p c then EmptyString
            else String c (drop_end p (String d s'))).
    split.
    + intros H. apply IH.
      destruct (is_empty (drop_end p (String d s')) && p c);
        [discriminate | now injection H].
    + intros H. apply IH in H. rewrite H. reflexivity.
Qed.

Lemma drop_end_tail (s : string) : tail_ok p (drop_end p s) = true.
Proof.
  induction s as [| c s IH]; [reflexivity |].
  cbn [drop_end].
  destruct (drop_end p s) as [| d t] eqn:Ht.
  - destruct (p c) eqn:Hc; simpl; [reflexivity | now rewrite Hc].
  - exact IH.
Qed.

Lemma drop_end_idem (s : string) : drop_end p (drop_end p s) = drop_end p s.
Proof. apply drop_end_id_iff, drop_end_tail. Qed.

Lemma drop_end_head (q : ascii -> bool) (s : string) :
  head_ok q s = true -> head_ok q (drop_end p s) = true.
Proof.
  destruct s as [| c s]; [reflexivity |]. cbn [drop_end head_ok].
  intros H. destruct (is_empty (drop_end p s) && p c); [reflexivity | exact H].
Qed.

Lemma tail_ok_app (a b : string) :
  b <> "" -> tail_ok p (a ++ b) = tail_ok p b.
Proof.
  intros Hb. induction a as [| c a IH]; [reflexivity |].
  simpl. destruct (a ++ b)%string eqn:E.
  - apply app_empty_inv in E. destruct E as [_ E]. now elim Hb.
  - exact IH.
Qed.

Lemma tail_ok_last (a : string) (c : ascii) :
  tail_ok p (a ++ String c "") = negb (p c).
Proof. rewrite tail_ok_app by discriminate. reflexivity. Qed.

Lemma drop_end_app_split (a b : string) :
  tail_ok p a = true -> a <> "" ->
  drop_end p (a ++ b) = (a ++ drop_end p b)%string.
Proof.
  induction a as [| c a IH]; intros Ht Ha; [now elim Ha |].
  destruct a as [| d a'].
  - simpl in Ht. apply negb_true_iff in Ht. simpl. rewrite Ht.
    now rewrite andb_false_r.
  - change (tail_ok p (String c (String d a'))) with (tail_ok p (String d a')) in Ht.
    change ((String c (String d a') ++ b)%string)
      with (String c (String d a' ++ b)%string).
    cbn [drop_end]. rewrite IH by (auto; discriminate). reflexivity.
Qed.

Lemma drop_end_prefix (s : string) :
  exists x, s = (drop_end p s ++ x)%string.
Proof.
  induction s as [| c s IH]; [now exists "" |].
  destruct IH as [x Hx]. cbn [drop_end].
  destruct (is_empty (drop_end p s) && p c).
  - now exists (String c s).
  - exists x. simpl. now rewrite <- Hx.
Qed.

Lemma drop_end_noop (s : string) :
  Str.forallb (fun c => negb (p c)) s = true -> drop_end p s = s.
Proof.
  intros H. apply drop_end_id_iff.
  induction s as [| c s IH]; [reflexivity |].
  simpl in H. apply andb_true_iff in H. destruct H as [Hc Hs].
  destruct s as [| d s']; [exact Hc | now apply IH].
Qed.

End StrFacts.

(** ** URL normalisation *)

Section UrlFacts.
Import Str Regex RegexAux UrlAux UrlNormalizer.

Lemma normalizeUrl_unfold (s : string) :
  normalizeUrl s =
  if is_empty s then s else finish (strip_trailing_slashes (trim s)).
Proof. reflexivity. Qed.

Lemma hero_normalizeUrl_unfold (s : string) :
  Hero.normalizeUrl s =
  if is_empty s || is_empty (trim s) then s else hero_finish (trim s).
Proof. reflexivity. Qed.

Lemma clean_parts (u : string) :
  clean u = true ->
  head_ok is_ws u = true /\ tail_ok is_ws u = true /\ tail_ok is_slash u = true.
Proof.
  unfold clean. intros H. apply andb_true_iff in H. destruct H as [H H3].
  apply andb_true_iff in H. tauto.
Qed.

Lemma clean_fix (u : string) :
  clean u = true -> strip_trailing_slashes (trim u) = u.
Proof.
  intros H. apply clean_parts in H. destruct H as [H1 [H2 H3]].
  unfold strip_trailing_slashes, trim.
  rewrite drop_start_id by exact H1.
  rewrite (proj2 (drop_end_id_iff is_ws u)) by exact H2.
  now apply drop_end_id_iff.
Qed.

Lemma cleaned_head (s : string) :
  head_ok is_ws (strip_trailing_slashes (trim s)) = true.
Proof.
  unfold strip_trailing_slashes, trim.
  apply drop_end_head, drop_end_head, drop_start_head.
Qed.

Lemma cleaned_tail (s : string) :
  tail_ok is_slash (strip_trailing_slashes (trim s)) = true.
Proof. apply drop_end_tail. Qed.

Lemma normalizeUrl_clean (u : string) : clean u = true -> normalizeUrl u = finish u.
Proof.
  intros H. rewrite normalizeUrl_unfold.
  destruct u as [| c u']; [reflexivity |].
  cbn [is_empty]. now rewrite clean_fix.
Qed.

Lemma lower_char_slash (c : ascii) : lower_char c = "/"%char -> c = "/"%char.
Proof.
  destruct c as [[] [] [] [] [] [] [] []]; vm_compute; intros H;
    solve [reflexivity | discriminate H].
Qed.

Lemma lit_i_inv (w : string) :
  forall s, matches (lit_i w) s ->
    String.length s = String.length w /\ lower s = lower w.
Proof.
  induction w as [| c w IH]; intros s H; simpl in H.
  - inversion H. now split.
  - inversion H as [| | ? ? s1 s2 H1 H2 | | | |]; subst.
    inversion H1 as [| q d Hd | | | | |]; subst.
    apply IH in H2. destruct H2 as [Hlen Hlow]. simpl. split.
    + now rewrite Hlen.
    + apply Ascii.eqb_eq in Hd. now rewrite Hd, Hlow.
Qed.

Lemma http_shape (u : string) :
  prefix_match http_re u = true ->
  exists a x, u = (a ++ String "/" x)%string /\ String.length a = 6.
Proof.
  intros H. apply prefix_match_elim in H. destruct H as [s1 [s2 [-> Hm]]].
  apply lit_i_inv in Hm. destruct Hm as [Hlen Hlow].
  do 7 (destruct s1 as [| ? s1]; [discriminate Hlen |]).
  destruct s1; [| discriminate Hlen].
  simpl in Hlow. injection Hlow as _ _ _ _ _ _ H7.
  apply lower_char_slash in H7. subst.
  eexists (String _ (String _ (String _ (String _ (String _ (String _ "")))))).
  exists s2. split; reflexivity.
Qed.

Lemma drop_app_length (a x : string) :
  drop (String.length a) (a ++ x) = x.
Proof. induction a as [| c a IH]; simpl; [now destruct x | exact IH]. Qed.

Lemma upgrade_http_shape (a x : string) :
  String.length a = 6 ->
  upgrade_http (a ++ String "/" x) = ("https://" ++ x)%string.
Proof.
  intros Hlen. unfold upgrade_http. f_equal.
  replace (a ++ String "/" x)%string with ((a ++ "/") ++ x)%string
    by (rewrite string_app_assoc; reflexivity).
  replace 7 with (String.length (a ++ "/")%string); [apply drop_app_length |].
  rewrite string_length_app, Hlen. reflexivity.
Qed.

Lemma scheme_https (x : string) :
  prefix_match scheme_re ("https://" ++ x) = true.
Proof. apply prefix_match_intro. apply full_match_correct. reflexivity. Qed.

Lemma http_https (x : string) :
  prefix_match http_re ("https://" ++ x) = false.
Proof.
  unfold prefix_match. rewrite full_match_app.
  apply dead_no_match. reflexivity.
Qed.

Lemma finish_https (x : string) :
  finish ("https://" ++ x) = ("https://" ++ x)%string.
Proof. unfold finish. now rewrite scheme_https, http_https. Qed.

Lemma prefix_inv (a : string) :
  forall s, String.prefix a s = true -> exists y, s = (a ++ y)%string.
Proof.
  induction a as [| c a IH]; intros s H.
  - now exists s.
  - destruct s as [| d s]; cbn [String.prefix] in H; [discriminate |].
    destruct (ascii_dec c d) as [<- |]; [| discriminate].
    apply IH in H. destruct H as [y ->]. now exists y.
Qed.

Lemma prefix_app (a y : string) : String.prefix a (a ++ y) = true.
Proof.
  induction a as [| c a IH]; [now destruct y |].
  cbn [String.prefix append].
  destruct (ascii_dec c c) as [_ | Hne]; [exact IH | now elim Hne].
Qed.

Lemma startsWith_slashes (u : string) :
  startsWith "//" u = true -> exists y, u = ("//" ++ y)%string.
Proof. apply prefix_inv. Qed.

Lemma host_nonempty (u : string) : looks_like_host u = true -> u <> "".
Proof. intros H ->. vm_compute in H. discriminate. Qed.

(** The shape of [finish u]: [u] itself, or [u] behind an added scheme, or
    the upgrade of an http URL. *)
Lemma finish_cases (u : string) :
  tail_ok is_slash u = true ->
  finish u = u \/
  exists x, x <> "" /\ finish u = ("https://" ++ x)%string /\
            forall q, tail_ok q x = tail_ok q u.
Proof.
  intros Hs. unfold finish.
  destruct (prefix_match scheme_re u) eqn:Hscheme.
  - destruct (prefix_match http_re u) eqn:Hhttp; [| now left].
    right. apply http_shape in Hhttp. destruct Hhttp as [a [x [-> Hlen]]].
    assert (x <> "") as Hx.
    { intros ->. rewrite tail_ok_last in Hs. discriminate. }
    exists x. split; [exact Hx |]. split; [now apply upgrade_http_shape |].
    intros q. symmetry.
    replace (a ++ String "/" x)%string with ((a ++ "/") ++ x)%string
      by (rewrite string_app_assoc; reflexivity).
    now apply tail_ok_app.
  - destruct (startsWith "//" u) eqn:Hrel.
    + right. apply startsWith_slashes in Hrel. destruct Hrel as [y ->].
      assert (y <> "") as Hy.
      { intros ->. simpl in Hs. discriminate. }
      exists y. split; [exact Hy |]. split; [reflexivity |].
      intros q. symmetry. now apply (tail_ok_app q "//").
    + destruct (looks_like_host u) eqn:Hhost; [| now left].
      right. exists u. split; [now apply host_nonempty |].
      split; reflexivity.
Qed.

Lemma finish_idem (u : string) :
  clean u = true -> clean (finish u) = true /\ finish (finish u) = finish u.
Proof.
  intros Hc. destruct (clean_parts u Hc) as [H1 [H2 H3]].
  destruct (finish_cases u H3) as [E | [x [Hx [E Ht]]]].
  - rewrite E. split; [exact Hc | exact E].
  - rewrite E. split; [| apply finish_https].
    unfold clean.
    rewrite (tail_ok_app is_ws "https://" x Hx).
    rewrite (tail_ok_app is_slash "https://" x Hx).
    now rewrite !Ht, H2, H3.
Qed.

(** Residual after a known prefix: no word is left. *)
Ltac dead_after a :=
  unfold prefix_match; rewrite (full_match_app a);
  apply dead_no_match; vm_compute; reflexivity.

Lemma host_not_slash (y : string) : looks_like_host ("/" ++ y) = false.
Proof.
  unfold looks_like_host.
  assert (full_match domainPattern ("/" ++ y) = false) as -> by dead_after "/".
  assert (full_match simpleDomainPattern ("/" ++ y) = false) as ->
    by dead_after "/".
  assert (full_match localhostPattern ("/" ++ y) = false) as ->
    by dead_after "/".
  assert (full_match ipPattern ("/" ++ y) = false) as -> by dead_after "/".
  reflexivity.
Qed.

Lemma scheme_not_slash (y : string) : prefix_match scheme_re ("/" ++ y) = false.
Proof. dead_after "/". Qed.

Lemma hero_domain_not_slash (y : string) :
  prefix_match Hero.domain_re ("/" ++ y) = false.
Proof. dead_after "/". Qed.

Lemma hero_label_not_slash (y : string) :
  full_match Hero.label_re ("/" ++ y) = false.
Proof. dead_after "/". Qed.

Lemma startsWith_slash (t : string) :
  startsWith "/" t = true -> exists y, t = ("/" ++ y)%string.
Proof. apply prefix_inv. Qed.

Lemma startsWith_two_one (t : string) :
  startsWith "//" t = true -> startsWith "/" t = true.
Proof.
  intros H. apply startsWith_slashes in H. destruct H as [y ->].
  apply (prefix_app "/" ("/" ++ y)).
Qed.

Lemma hero_finish_cases (t : string) :
  hero_finish t = t \/ hero_finish t = ("https:" ++ t)%string \/
  hero_finish t = ("https://" ++ t)%string.
Proof.
  unfold hero_finish.
  destruct (prefix_match scheme_re t); [now left |].
  destruct (startsWith "//" t); [now right; left |].
  destruct (prefix_match Hero.domain_re t); [now right; right |].
  destruct (full_match Hero.label_re t); [now right; right |].
  destruct (startsWith "/" t); [now left | now right; right].
Qed.

Lemma hero_finish_tail (q : ascii -> bool) (t : string) :
  t <> "" -> tail_ok q (hero_finish t) = tail_ok q t.
Proof.
  intros Ht. destruct (hero_finish_cases t) as [-> | [-> | ->]];
    [reflexivity | now apply tail_ok_app | now apply tail_ok_app].
Qed.

Lemma finish_tail (u : string) :
  tail_ok is_slash u = true -> tail_ok is_slash (finish u) = true.
Proof.
  intros Hs. destruct (finish_cases u Hs) as [-> | [x [Hx [-> Ht]]]];
    [exact Hs |].
  rewrite (tail_ok_app is_slash "https://" x Hx). now rewrite Ht.
Qed.

(** On a trimmed input without trailing slash the two functions agree
    exactly on the branches of [same_branch]. *)
Lemma finish_agrees_iff (t : string) :
  tail_ok is_slash t = true ->
  (finish t = hero_finish t <-> same_branch t = true).
Proof.
  intros Hs. unfold finish, hero_finish, same_branch.
  destruct (prefix_match scheme_re t) eqn:Hscheme.
  - destruct (prefix_match http_re t) eqn:Hhttp; simpl.
    + split; [| discriminate]. intros E. exfalso.
      apply http_shape in Hhttp. destruct Hhttp as [a [x [-> Hlen]]].
      rewrite upgrade_http_shape in E by exact Hlen.
      apply (f_equal String.length) in E.
      rewrite !string_length_app, Hlen in E. simpl in E. lia.
    + tauto.
  - destruct (looks_like_host t) eqn:Hhost; simpl.
    + split; [reflexivity |]. intros _.
      destruct (startsWith "//" t) eqn:Hrel.
      { apply startsWith_slashes in Hrel. destruct Hrel as [y ->].
        change ("//" ++ y)%string with ("/" ++ ("/" ++ y))%string in Hhost.
        rewrite host_not_slash in Hhost. discriminate. }
      destruct (startsWith "/" t) eqn:Hroot.
      { apply startsWith_slash in Hroot. destruct Hroot as [y ->].
        rewrite host_not_slash in Hhost. discriminate. }
      destruct (prefix_match Hero.domain_re t);
        destruct (full_match Hero.label_re t); reflexivity.
    + destruct (startsWith "/" t) eqn:Hroot.
      * split; [reflexivity |]. intros _.
        destruct (startsWith "//" t); [reflexivity |].
        apply startsWith_slash in Hroot. destruct Hroot as [y ->].
        now rewrite hero_domain_not_slash, hero_label_not_slash.
      * split; [| discriminate]. intros E. exfalso.
        destruct (startsWith "//" t) eqn:Hrel.
        { apply startsWith_two_one in Hrel. congruence. }
        assert (t = ("https://" ++ t)%string) as E'.
        { destruct (prefix_match Hero.domain_re t);
            destruct (full_match Hero.label_re t); exact E. }
        apply (f_equal String.length) in E'.
        rewrite string_length_app in E'. simpl in E'. lia.
Qed.

(** C9, as the code has it: the two normalisers return the same output
    exactly on the comparable inputs: the empty string, and the inputs whose
    trimmed form is non-empty, does not end in a slash and either carries
    the https scheme, or is a host that part_000 recognises, or starts with
    a slash.  On every other input the outputs differ. *)
Theorem normalizers_agree_exactly_on_comparable_inputs :
  forall s : string,
    normalizeUrl s = Hero.normalizeUrl s <-> comparable s = true.
Proof.
  intros s. rewrite normalizeUrl_unfold, hero_normalizeUrl_unfold.
  unfold comparable.
  destruct (is_empty s) eqn:He; cbn [orb].
  - tauto.
  - set (t := trim s). destruct (is_empty t) eqn:Het; cbn [negb andb].
    + split; [| discriminate]. intros E. exfalso.
      destruct t; [| discriminate]. vm_compute in E. subst s. discriminate.
    + assert (t <> "") as Hne by (intros E; rewrite E in Het; discriminate).
      destruct (tail_ok is_slash t) eqn:Hs; cbn [andb].
      * unfold strip_trailing_slashes.
        rewrite (proj2 (drop_end_id_iff is_slash t) Hs).
        now apply finish_agrees_iff.
      * split; [| discriminate]. intros E. exfalso.
        apply (f_equal (tail_ok is_slash)) in E.
        rewrite finish_tail in E by apply drop_end_tail.
        rewrite hero_finish_tail in E by exact Hne.
        congruence.
Qed.

(** C9 fails as stated: only part_000 upgrades the http scheme. *)
Lemma normalizers_differ_on_http :
  normalizeUrl "http://example.com" = "https://example.com" /\
  Hero.normalizeUrl "http://example.com" = "http://example.com" /\
  normalizeUrl "http://example.com" <> Hero.normalizeUrl "http://example.com".
Proof.
  split; [reflexivity |]. split; [reflexivity |].
  vm_compute. discriminate.
Qed.

Lemma http_colon (u : string) :
  prefix_match http_re u = true ->
  exists a c b,
    u = (a ++ String c b)%string /\ String.length a = 4 /\
    lower_char c = ":"%char.
Proof.
  intros H. apply prefix_match_elim in H. destruct H as [s1 [s2 [-> Hm]]].
  apply lit_i_inv in Hm. destruct Hm as [Hlen Hlow].
  do 5 (destruct s1 as [| ? s1]; [discriminate Hlen |]).
  simpl in Hlow. injection Hlow as _ _ _ _ H5 _.
  eexists (String _ (String _ (String _ (String _ "")))), _, _.
  split; [reflexivity |]. split; [reflexivity | exact H5].
Qed.

Lemma get_after (a : string) (c : ascii) (b : string) :
  String.get (String.length a) (a ++ (String c b)) = Some c.
Proof. induction a as [| d a IH]; simpl; [reflexivity | exact IH]. Qed.

Lemma cleaned_extension (r : string) :
  head_ok is_ws r = true -> tail_ok is_ws r = false ->
  exists j,
    r = (strip_trailing_slashes (trim r) ++ j)%string /\ j <> "".
Proof.
  intros Hh Ht. unfold strip_trailing_slashes, trim.
  rewrite drop_start_id by exact Hh.
  destruct (drop_end_prefix is_ws r) as [j1 H1].
  destruct (drop_end_prefix is_slash (drop_end is_ws r)) as [j2 H2].
  exists (j2 ++ j1)%string. split.
  - rewrite <- string_app_assoc, <- H2. exact H1.
  - intros E. apply app_empty_inv in E. destruct E as [_ E1]. subst j1.
    rewrite string_app_nil_r in H1. symmetry in H1.
    apply drop_end_id_iff in H1. congruence.
Qed.

Lemma cleaned_keeps_https (w : string) :
  w <> "" -> head_ok is_ws w = true -> head_ok is_slash w = true ->
  exists w',
    strip_trailing_slashes (trim ("https://" ++ w)) = ("https://" ++ w')%string.
Proof.
  destruct w as [| c rest]; [intros H; now elim H |]. intros _ Hws Hsl.
  cbn [head_ok] in Hws, Hsl.
  unfold strip_trailing_slashes, trim.
  rewrite drop_start_id by reflexivity.
  change ("https://" ++ String c rest)%string
    with (("https://" ++ String c "") ++ rest)%string.
  rewrite (drop_end_app_split is_ws);
    [| rewrite tail_ok_last; exact Hws | discriminate].
  rewrite (drop_end_app_split is_slash);
    [| rewrite tail_ok_last; exact Hsl | discriminate].
  eexists. rewrite string_app_assoc. reflexivity.
Qed.

(** A result that ends in white space is changed by a further pass. *)
Lemma second_pass_differs (r : string) :
  head_ok is_ws r = true -> tail_ok is_ws r = false ->
  finish (strip_trailing_slashes (trim r)) <> r.
Proof.
  intros Hh Ht E.
  destruct (cleaned_extension r Hh Ht) as [j [Hr Hj]].
  pose proof (cleaned_head r) as Hvh.
  remember (strip_trailing_slashes (trim r)) as v eqn:Hv.
  assert (v <> r) as Hshort.
  { intros Ev. rewrite Ev in Hr.
    apply (f_equal String.length) in Hr. rewrite string_length_app in Hr.
    destruct j; [now elim Hj | simpl in Hr; lia]. }
  unfold finish in E.
  destruct (prefix_match scheme_re v) eqn:Hscheme.
  - destruct (prefix_match http_re v) eqn:Hhttp; [| contradiction].
    apply http_colon in Hhttp. destruct Hhttp as [a [c [b [Ea [Hlen Hc]]]]].
    assert (String.get 4 (upgrade_http v) = Some "s"%char) as Hl
      by reflexivity.
    assert (String.get 4 r = Some c) as Hg.
    { rewrite Hr, Ea, string_app_assoc, <- Hlen. apply get_after. }
    rewrite E, Hg in Hl. injection Hl as ->.
    vm_compute in Hc. discriminate.
  - destruct (startsWith "//" v) eqn:Hrel.
    + apply startsWith_slashes in Hrel. destruct Hrel as [y Ey].
      rewrite Hr, Ey in E. discriminate E.
    + destruct (looks_like_host v) eqn:Hhost; [| contradiction].
      assert (head_ok is_slash v = true) as Hsl.
      { destruct v as [| c y]; [reflexivity |]. cbn [head_ok].
        destruct (is_slash c) eqn:Hc; [| reflexivity].
        apply Ascii.eqb_eq in Hc. subst c.
        change (String "/" y) with ("/" ++ y)%string in Hhost.
        rewrite host_not_slash in Hhost. discriminate. }
      destruct (cleaned_keeps_https v (host_nonempty v Hhost) Hvh Hsl)
        as [w' Hw'].
      rewrite E, <- Hv in Hw'. rewrite Hw', scheme_https in Hscheme.
      discriminate.
Qed.

(** C10, as the code has it: normalising twice gives the same result as
    normalising once exactly when the input, once trimmed and stripped of
    its trailing slashes, does not end in white space; on every other input
    the second pass changes the result. *)
Theorem normalizeUrl_idempotent_iff_no_space_precedes_trailing_slashes :
  forall s : string,
    normalizeUrl (normalizeUrl s) = normalizeUrl s <->
    tail_ok is_ws (strip_trailing_slashes (trim s)) = true.
Proof.
  intros s. rewrite (normalizeUrl_unfold s).
  destruct (is_empty s) eqn:He.
  - destruct s; [| discriminate]. split; reflexivity.
  - set (u := strip_trailing_slashes (trim s)).
    pose proof (cleaned_head s) as Hhead. pose proof (cleaned_tail s) as Htail.
    fold u in Hhead, Htail.
    destruct (tail_ok is_ws u) eqn:Hws.
    + split; [reflexivity |]. intros _.
      assert (clean u = true) as Hc by (unfold clean; now rewrite Hhead, Hws, Htail).
      destruct (finish_idem u Hc) as [Hc' Hid].
      now rewrite (normalizeUrl_clean _ Hc').
    + split; [| discriminate]. intros E. exfalso.
      assert (head_ok is_ws (finish u) = true /\ tail_ok is_ws (finish u) = false)
        as [Hh Ht].
      { destruct (finish_cases u Htail) as [-> | [x [Hx [-> Hq]]]];
          [now split |].
        split; [reflexivity |].
        now rewrite (tail_ok_app is_ws "https://" x Hx), Hq. }
      rewrite normalizeUrl_unfold in E.
      destruct (finish u) as [| c r'] eqn:Hr; [discriminate Ht |].
      cbn [is_empty] in E.
      now apply (second_pass_differs (String c r')).
Qed.

(** C10 fails as stated: the slash is stripped after the trim, so the space
    that preceded it survives the first pass and is trimmed by the second. *)
Lemma normalizeUrl_not_idempotent :
  normalizeUrl "x /" = "x " /\
  normalizeUrl (normalizeUrl "x /") = "x" /\
  normalizeUrl (normalizeUrl "x /") <> normalizeUrl "x /".
Proof.
  split; [reflexivity |]. split; [reflexivity |].
  vm_compute. discriminate.
Qed.

End UrlFacts.

(** ** Bare domains and protocol-relative references *)

Section UpgradeFacts.
Import Str Regex RegexAux UrlAux UrlNormalizer.

Lemma forallb_app (p : ascii -> bool) (a b : string) :
  Str.forallb p (a ++ b) = Str.forallb p a && Str.forallb p b.
Proof.
  induction a as [| c a IH]; simpl; [reflexivity |].
  now rewrite IH, andb_assoc.
Qed.

Lemma forallb_impl (p q : ascii -> bool) (s : string) :
  (forall c, p c = true -> q c = true) ->
  Str.forallb p s = true -> Str.forallb q s = true.
Proof.
  intros Hpq. induction s as [| c s IH]; simpl; [reflexivity |].
  intros H. apply andb_true_iff in H. destruct H as [Hc Hs].
  now rewrite (Hpq c Hc), IH.
Qed.

Lemma forallb_tail_ok (p : ascii -> bool) (s : string) :
  Str.forallb (fun c => negb (p c)) s = true -> tail_ok p s = true.
Proof. intros H. apply drop_end_id_iff. now apply drop_end_noop. Qed.

Lemma forallb_drop_end (p q : ascii -> bool) (s : string) :
  Str.forallb p s = true -> Str.forallb p (drop_end q s) = true.
Proof.
  induction s as [| c s IH]; [reflexivity |]. cbn [drop_end Str.forallb].
  intros H. apply andb_true_iff in H. destruct H as [Hc Hs].
  destruct (is_empty (drop_end q s) && q c); [reflexivity |].
  cbn [Str.forallb]. now rewrite Hc, IH.
Qed.

(** Character facts, by enumeration of the 256 characters. *)
Ltac by_cases_on c :=
  destruct c as [[] [] [] [] [] [] [] []]; vm_compute;
  intros; solve [reflexivity | discriminate | tauto | intuition congruence].

Lemma ldh_lower (c : ascii) : is_ldh (lower_char c) = is_ldh c.
Proof. by_cases_on c. Qed.

Lemma ldh_not_ws (c : ascii) : is_ldh c = true -> not_ws c = true.
Proof. by_cases_on c. Qed.

Lemma ldh_not_slash (c : ascii) : is_ldh c = true -> negb (is_slash c) = true.
Proof. by_cases_on c. Qed.

Lemma alnum_ldh (c : ascii) : is_alnum c = true -> is_ldh c = true.
Proof. unfold is_ldh. intros ->. reflexivity. Qed.

Lemma alpha_ldh (c : ascii) : is_alpha c = true -> is_ldh c = true.
Proof. unfold is_ldh, is_alnum. intros ->. reflexivity. Qed.

Lemma not_ws_dot (c : ascii) :
  not_ws c = true ->
  negb (Ascii.eqb c "010" || Ascii.eqb c "013") = true.
Proof. by_cases_on c. Qed.

Lemma forallb_lower (s : string) :
  Str.forallb is_ldh (lower s) = Str.forallb is_ldh s.
Proof.
  induction s as [| c s IH]; simpl; [reflexivity |].
  now rewrite ldh_lower, IH.
Qed.

(** The first character outside a class is determined by the string. *)
Lemma first_stop (p : ascii -> bool) (a : string) :
  forall a' c c' x x',
    Str.forallb p a = true -> p c = false ->
    Str.forallb p a' = true -> p c' = false ->
    (a ++ String c x)%string = (a' ++ String c' x')%string -> c = c'.
Proof.
  induction a as [| d a IH]; intros [| d' a'] c c' x x' Ha Hc Ha' Hc' E;
    simpl in *.
  - now injection E.
  - injection E as -> _. apply andb_true_iff in Ha'. destruct Ha' as [Hd _].
    congruence.
  - injection E as <- _. apply andb_true_iff in Ha. destruct Ha as [Hd _].
    congruence.
  - injection E as _ E. apply andb_true_iff in Ha, Ha'.
    destruct Ha as [_ Ha]. destruct Ha' as [_ Ha'].
    now apply (IH a' c c' x x').
Qed.

Lemma inner_ok_ldh (rest : string) :
  inner_ok rest = true -> Str.forallb is_ldh rest = true.
Proof.
  induction rest as [| d rest IH]; [reflexivity |].
  destruct rest as [| e rest'].
  - simpl. intros H. now rewrite (alnum_ldh d H).
  - change (inner_ok (String d (String e rest')))
      with (is_ldh d && inner_ok (String e rest')).
    intros H. apply andb_true_iff in H. destruct H as [Hd Hr].
    cbn [Str.forallb] in *. now rewrite Hd, IH.
Qed.

Lemma label_ok_parts (l : string) :
  label_ok l = true ->
  exists c rest,
    l = String c rest /\ is_alnum c = true /\ inner_ok rest = true /\
    String.length rest <= 62.
Proof.
  destruct l as [| c rest]; [discriminate |]. unfold label_ok.
  intros H. apply andb_true_iff in H. destruct H as [H Hlen].
  apply andb_true_iff in H. destruct H as [Hc Hin].
  apply Nat.leb_le in Hlen. now exists c, rest.
Qed.

Lemma label_ok_ldh (l : string) :
  label_ok l = true -> Str.forallb is_ldh l = true.
Proof.
  intros H. apply label_ok_parts in H.
  destruct H as [c [rest [-> [Hc [Hin _]]]]]. simpl.
  now rewrite (alnum_ldh c Hc), (inner_ok_ldh rest Hin).
Qed.

Lemma host_char_not_ws (c : ascii) : is_host_char c = true -> not_ws c = true.
Proof. by_cases_on c. Qed.

Lemma host_char_not_slash (c : ascii) :
  is_host_char c = true -> negb (is_slash c) = true.
Proof. by_cases_on c. Qed.

Lemma ldh_host_char (c : ascii) : is_ldh c = true -> is_host_char c = true.
Proof. unfold is_host_char. intros ->. reflexivity. Qed.

Lemma dotted_host_chars (labels : list string) :
  List.forallb label_ok labels = true ->
  Str.forallb is_host_char (dotted labels) = true.
Proof.
  induction labels as [| l ls IH]; [reflexivity |]. simpl.
  intros H. apply andb_true_iff in H. destruct H as [Hl Hls].
  rewrite forallb_app. simpl. rewrite IH by exact Hls.
  rewrite (forallb_impl is_ldh is_host_char l ldh_host_char
             (label_ok_ldh l Hl)).
  reflexivity.
Qed.

Lemma tld_host_chars (tld : string) :
  tld_ok tld = true -> Str.forallb is_host_char tld = true /\ tld <> "".
Proof.
  unfold tld_ok. intros H. apply andb_true_iff in H. destruct H as [Hlen Ha].
  split.
  - apply (forallb_impl is_alpha); [| exact Ha].
    intros c Hc. apply ldh_host_char. now apply alpha_ldh.
  - intros ->. discriminate.
Qed.

Lemma host_chars (labels : list string) (tld : string) :
  List.forallb label_ok labels = true -> tld_ok tld = true ->
  Str.forallb is_host_char (host_of labels tld) = true /\
  host_of labels tld <> "".
Proof.
  intros Hl Ht. destruct (tld_host_chars tld Ht) as [Hc Hne].
  unfold host_of. split.
  - now rewrite forallb_app, dotted_host_chars, Hc.
  - intros E. apply app_empty_inv in E. tauto.
Qed.

(** *** The scheme pattern does not match a host *)

Lemma opt_chr_i_ldh (c : ascii) (o : string) :
  is_ldh c = true -> matches (opt (chr_i c)) o ->
  Str.forallb is_ldh o = true.
Proof.
  intros Hc H. inversion H as [| | | ? ? ? HL | ? ? ? HR | |]; subst.
  - inversion HL as [| q d Hd | | | | |]; subst. simpl.
    apply Ascii.eqb_eq in Hd.
    now rewrite <- ldh_lower, Hd, ldh_lower, Hc.
  - inversion HR. reflexivity.
Qed.

Lemma scheme_shape (s1 : string) :
  matches scheme_re s1 ->
  exists a c x,
    s1 = (a ++ String c x)%string /\ Str.forallb is_ldh a = true /\
    lower_char c = ":"%char.
Proof.
  unfold scheme_re. intros H.
  inversion H as [| | ? ? h rest Hh Hrest | | | |]; subst.
  inversion Hrest as [| | ? ? o c3 Ho Hc3 | | | |]; subst.
  apply (lit_i_inv "http") in Hh. destruct Hh as [_ Hh].
  apply (lit_i_inv "://") in Hc3. destruct Hc3 as [Hlen3 Hlow3].
  destruct c3 as [| c x]; [discriminate Hlen3 |].
  simpl in Hlow3. injection Hlow3 as Hc _.
  exists (h ++ o)%string, c, x. split; [| split].
  - now rewrite string_app_assoc.
  - rewrite forallb_app, <- (forallb_lower h), Hh.
    now rewrite (opt_chr_i_ldh "s" o eq_refl Ho).
  - exact Hc.
Qed.

Lemma ldh_colon (c : ascii) : lower_char c = ":"%char -> is_ldh c = false.
Proof. by_cases_on c. Qed.

Lemma scheme_not_host (labels : list string) (tld z : string) :
  bare_domain labels tld "" = true ->
  prefix_match scheme_re (host_of labels tld ++ z) = false.
Proof.
  intros Hb. destruct (prefix_match scheme_re _) eqn:Hm; [| reflexivity].
  exfalso. apply prefix_match_elim in Hm. destruct Hm as [s1 [s2 [E Hs1]]].
  apply scheme_shape in Hs1. destruct Hs1 as [a [c [x [-> [Ha Hc]]]]].
  destruct labels as [| l ls]; [discriminate |].
  cbn [bare_domain List.forallb] in Hb.
  apply andb_true_iff in Hb. destruct Hb as [Hb _].
  apply andb_true_iff in Hb. destruct Hb as [Hb _].
  apply andb_true_iff in Hb. destruct Hb as [Hl _].
  unfold host_of in E. cbn [dotted] in E.
  rewrite !string_app_assoc in E. cbn [append] in E.
  assert (c = "."%char) as ->.
  { symmetry.
    apply (first_stop is_ldh l a "."%char c _ _
             (label_ok_ldh l Hl) eq_refl Ha (ldh_colon c Hc) E). }
  vm_compute in Hc. discriminate.
Qed.

(** *** The domain pattern matches a bare domain *)

Lemma rep_upto_empty (n : nat) (r : regex) : matches (rep_upto n r) "".
Proof. destruct n; simpl; [constructor | apply MAltR; constructor]. Qed.

Lemma star_cls (p : ascii -> bool) (s : string) :
  Str.forallb p s = true -> matches (Star (Cls p)) s.
Proof.
  induction s as [| c s IH]; simpl; intros H; [constructor |].
  apply andb_true_iff in H. destruct H as [Hc Hs].
  change (String c s) with (String c "" ++ s)%string.
  constructor; [now constructor | now apply IH].
Qed.

Lemma inner_matches (rest : string) :
  forall n,
    inner_ok rest = true -> rest <> "" -> String.length rest <= S n ->
    matches (Cat (rep_upto n alnum_dash) alnum) rest.
Proof.
  induction rest as [| d rest IH]; intros n Hin Hne Hlen; [now elim Hne |].
  destruct rest as [| e rest'].
  - simpl in Hin. change (String d "") with ("" ++ String d "")%string.
    constructor; [apply rep_upto_empty | now constructor].
  - change (inner_ok (String d (String e rest')))
      with (is_ldh d && inner_ok (String e rest')) in Hin.
    apply andb_true_iff in Hin. destruct Hin as [Hd Hin].
    destruct n as [| n']; [simpl in Hlen; lia |].
    assert (matches (Cat (rep_upto n' alnum_dash) alnum) (String e rest'))
      as Hrec.
    { apply IH; [exact Hin | discriminate | simpl in *; lia]. }
    apply cat_inv in Hrec. destruct Hrec as [s1 [s2 [E [H1 H2]]]].
    rewrite E.
    change (String d (s1 ++ s2)) with (String d s1 ++ s2)%string.
    constructor; [| exact H2].
    simpl. apply MAltL.
    change (String d s1) with (String d "" ++ s1)%string.
    constructor; [now constructor | exact H1].
Qed.

Lemma label_matches (l : string) :
  label_ok l = true -> matches (Cat alnum label_tail) l.
Proof.
  intros H. apply label_ok_parts in H.
  destruct H as [c [rest [-> [Hc [Hin Hlen]]]]].
  change (String c rest) with (String c "" ++ rest)%string.
  constructor; [now constructor |].
  unfold label_tail, opt. destruct rest as [| d rest'].
  - apply MAltR. constructor.
  - apply MAltL. apply inner_matches; [exact Hin | discriminate | lia].
Qed.

Lemma dotted_matches (labels : list string) :
  List.forallb label_ok labels = true ->
  matches (Star (Cat (Cat alnum label_tail) (chr "."))) (dotted labels).
Proof.
  induction labels as [| l ls IH]; simpl; intros H; [constructor |].
  apply andb_true_iff in H. destruct H as [Hl Hls].
  change (l ++ String "." (dotted ls))%string
    with (l ++ ("." ++ dotted ls))%string.
  rewrite <- string_app_assoc.
  constructor; [| now apply IH].
  constructor; [now apply label_matches |].
  constructor. reflexivity.
Qed.

Lemma dotted_plus_matches (labels : list string) :
  labels <> [] -> List.forallb label_ok labels = true ->
  matches (plus (Cat (Cat alnum label_tail) (chr "."))) (dotted labels).
Proof.
  destruct labels as [| l ls]; [intros H; now elim H |]. intros _ H.
  cbn [List.forallb] in H. apply andb_true_iff in H. destruct H as [Hl Hls].
  cbn [dotted].
  change (l ++ "." ++ dotted ls)%string with (l ++ ("." ++ dotted ls))%string.
  rewrite <- string_app_assoc. unfold plus.
  constructor; [| now apply dotted_matches].
  constructor; [now apply label_matches |].
  constructor. reflexivity.
Qed.

Lemma tld_matches (tld : string) :
  tld_ok tld = true -> matches (rep_min 2 alpha) tld.
Proof.
  unfold tld_ok. intros H. apply andb_true_iff in H. destruct H as [Hlen Ha].
  destruct tld as [| a [| b t]]; try discriminate.
  simpl in Ha. apply andb_true_iff in Ha. destruct Ha as [Ha Hb].
  apply andb_true_iff in Hb. destruct Hb as [Hb Ht].
  change (String a (String b t)) with (String a (String b "") ++ t)%string.
  unfold rep_min. constructor; [| now apply star_cls].
  simpl.
  change (String a (String b "")) with (String a "" ++ String b "")%string.
  constructor; [now constructor |].
  change (String b "") with (String b "" ++ "")%string.
  constructor; [now constructor | constructor].
Qed.

Lemma path_matches (path : string) :
  path_ok path = true -> matches path_re path.
Proof.
  unfold path_re, opt. destruct path as [| c q]; [intros _; apply MAltR; constructor |].
  unfold path_ok. intros H. apply andb_true_iff in H. destruct H as [Hc Hq].
  apply Ascii.eqb_eq in Hc. subst c.
  simpl in Hq. apply MAltL.
  change (String "/" q) with ("/" ++ q)%string.
  constructor; [constructor; reflexivity |].
  apply star_cls. apply (forallb_impl not_ws); [apply not_ws_dot | exact Hq].
Qed.

Lemma path_ok_strip (path : string) :
  path_ok path = true -> path_ok (strip_trailing_slashes path) = true.
Proof.
  destruct path as [| c q]; [reflexivity |]. unfold path_ok at 1.
  intros H. apply andb_true_iff in H. destruct H as [Hc Hq].
  pose proof (forallb_drop_end not_ws is_slash (String c q) Hq) as Hd.
  unfold strip_trailing_slashes in *. cbn [drop_end] in *.
  destruct (is_empty (drop_end is_slash q) && is_slash c); [reflexivity |].
  unfold path_ok. now rewrite Hc, Hd.
Qed.

Lemma bare_domain_parts (labels : list string) (tld path : string) :
  bare_domain labels tld path = true ->
  labels <> [] /\ List.forallb label_ok labels = true /\
  tld_ok tld = true /\ path_ok path = true.
Proof.
  destruct labels as [| l ls]; [discriminate |]. unfold bare_domain.
  intros H. apply andb_true_iff in H. destruct H as [H Hp].
  apply andb_true_iff in H. destruct H as [Hl Ht].
  repeat split; try assumption. discriminate.
Qed.

Lemma host_looks_like_host (labels : list string) (tld path : string) :
  bare_domain labels tld path = true ->
  looks_like_host (host_of labels tld ++ path) = true.
Proof.
  intros H. apply bare_domain_parts in H. destruct H as [Hne [Hl [Ht Hp]]].
  unfold looks_like_host.
  assert (full_match domainPattern (host_of labels tld ++ path) = true) as ->;
    [| reflexivity].
  apply full_match_correct. unfold domainPattern, host_of.
  rewrite string_app_assoc.
  constructor; [now apply dotted_plus_matches |].
  constructor; [now apply tld_matches | now apply path_matches].
Qed.

(** *** Cleaning leaves a host and its path in place *)

Lemma forallb_head_ok (p : ascii -> bool) (s : string) :
  Str.forallb (fun c => negb (p c)) s = true -> head_ok p s = true.
Proof.
  destruct s as [| c s]; simpl; [reflexivity |].
  intros H. apply andb_true_iff in H. tauto.
Qed.

Lemma trim_noop (x : string) : Str.forallb not_ws x = true -> trim x = x.
Proof.
  intros H. unfold trim.
  rewrite drop_start_id by (now apply forallb_head_ok).
  now apply drop_end_noop.
Qed.

Lemma path_ok_not_ws (path : string) :
  path_ok path = true -> Str.forallb not_ws path = true.
Proof.
  destruct path as [| c q]; [reflexivity |]. unfold path_ok.
  intros H. apply andb_true_iff in H. tauto.
Qed.

Section Host.

Variables (labels : list string) (tld path : string).
Hypothesis Hbare : bare_domain labels tld path = true.

Let host : string := host_of labels tld.

Lemma host_facts :
  Str.forallb is_host_char host = true /\ host <> "" /\
  path_ok path = true /\ bare_domain labels tld "" = true.
Proof.
  destruct (bare_domain_parts _ _ _ Hbare) as [Hne [Hl [Ht Hp]]].
  destruct (host_chars labels tld Hl Ht) as [Hc Hh].
  repeat split; try assumption.
  destruct labels; [now elim Hne |].
  unfold bare_domain. now rewrite Hl, Ht.
Qed.

Lemma cleaned_prefixed (pre : string) :
  Str.forallb not_ws pre = true ->
  strip_trailing_slashes (trim (pre ++ host ++ path)) =
  (pre ++ host ++ strip_trailing_slashes path)%string.
Proof.
  intros Hpre. destruct host_facts as [Hc [Hh [Hp _]]].
  rewrite trim_noop.
  - unfold strip_trailing_slashes. rewrite <- !string_app_assoc.
    apply drop_end_app_split.
    + rewrite tail_ok_app by exact Hh. apply forallb_tail_ok.
      apply (forallb_impl is_host_char); [apply host_char_not_slash | exact Hc].
    + intros E. apply app_empty_inv in E. tauto.
  - rewrite !forallb_app, Hpre, (path_ok_not_ws path Hp).
    now rewrite (forallb_impl is_host_char not_ws host host_char_not_ws Hc).
Qed.

Lemma host_not_rooted (z : string) : startsWith "/" (host ++ z) = false.
Proof.
  destruct host_facts as [Hc [Hh _]].
  destruct host as [| c rest]; [now elim Hh |].
  simpl in Hc. apply andb_true_iff in Hc. destruct Hc as [Hc _].
  unfold startsWith. cbn [append String.prefix].
  destruct (ascii_dec "/" c) as [<- |]; [discriminate Hc | reflexivity].
Qed.

Lemma host_not_relative (z : string) : startsWith "//" (host ++ z) = false.
Proof.
  destruct (startsWith "//" (host ++ z)) eqn:E; [| reflexivity].
  apply startsWith_two_one in E. now rewrite host_not_rooted in E.
Qed.

Lemma host_nonempty_app (z : string) : is_empty (host ++ z) = false.
Proof.
  destruct host_facts as [_ [Hh _]].
  destruct host; [now elim Hh | reflexivity].
Qed.

Lemma normalize_bare :
  normalizeUrl (host ++ path) =
  ("https://" ++ host ++ strip_trailing_slashes path)%string.
Proof.
  destruct host_facts as [_ [_ [Hp Hb0]]].
  rewrite normalizeUrl_unfold, host_nonempty_app.
  pose proof (cleaned_prefixed "" eq_refl) as Hcl.
  change ("" ++ host ++ path)%string with (host ++ path)%string in Hcl.
  rewrite Hcl.
  change ("" ++ host ++ strip_trailing_slashes path)%string
    with (host ++ strip_trailing_slashes path)%string.
  unfold finish.
  rewrite (scheme_not_host labels tld _ Hb0 : prefix_match _ (host ++ _) = _).
  rewrite host_not_relative.
  assert (bare_domain labels tld (strip_trailing_slashes path) = true) as Hbs.
  { destruct (bare_domain_parts _ _ _ Hbare) as [Hne [Hl [Ht _]]].
    destruct labels; [now elim Hne |]. unfold bare_domain.
    now rewrite Hl, Ht, path_ok_strip. }
  rewrite (host_looks_like_host labels tld _ Hbs
           : looks_like_host (host ++ _) = _).
  reflexivity.
Qed.

Lemma hero_normalize_bare :
  Hero.normalizeUrl (host ++ path) = ("https://" ++ host ++ path)%string.
Proof.
  destruct host_facts as [Hc [_ [Hp Hb0]]].
  assert (trim (host ++ path) = (host ++ path)%string) as Ht.
  { apply trim_noop. rewrite forallb_app, (path_ok_not_ws path Hp).
    now rewrite (forallb_impl is_host_char not_ws host host_char_not_ws Hc). }
  rewrite hero_normalizeUrl_unfold, Ht, host_nonempty_app. cbn [orb].
  unfold hero_finish.
  rewrite (scheme_not_host labels tld path Hb0
           : prefix_match scheme_re (host ++ path) = false).
  rewrite host_not_relative, host_not_rooted.
  destruct (prefix_match Hero.domain_re (host ++ path));
    destruct (full_match Hero.label_re (host ++ path)); reflexivity.
Qed.

Lemma normalize_relative :
  normalizeUrl ("//" ++ host ++ path) =
  ("https://" ++ host ++ strip_trailing_slashes path)%string.
Proof.
  rewrite normalizeUrl_unfold. cbn [is_empty append].
  change (String "/" (String "/" (host ++ path)))
    with ("//" ++ host ++ path)%string.
  rewrite (cleaned_prefixed "//" eq_refl).
  unfold finish.
  change ("//" ++ host ++ strip_trailing_slashes path)%string
    with ("/" ++ ("/" ++ host ++ strip_trailing_slashes path))%string at 1.
  rewrite scheme_not_slash.
  unfold startsWith. rewrite prefix_app. reflexivity.
Qed.

Lemma hero_normalize_relative :
  Hero.normalizeUrl ("//" ++ host ++ path) =
  ("https://" ++ host ++ path)%string.
Proof.
  destruct host_facts as [Hc [_ [Hp _]]].
  assert (trim ("//" ++ host ++ path) = ("//" ++ host ++ path)%string) as Ht.
  { apply trim_noop. rewrite !forallb_app, (path_ok_not_ws path Hp).
    now rewrite (forallb_impl is_host_char not_ws host host_char_not_ws Hc). }
  rewrite hero_normalizeUrl_unfold, Ht. cbn [is_empty append orb].
  change (String "/" (String "/" (host ++ path)))
    with ("//" ++ host ++ path)%string.
  unfold hero_finish.
  change ("//" ++ host ++ path)%string
    with ("/" ++ ("/" ++ host ++ path))%string at 1.
  rewrite scheme_not_slash.
  unfold startsWith. rewrite prefix_app. reflexivity.
Qed.

Lemma normalize_secure :
  normalizeUrl ("https://" ++ host ++ path) =
  ("https://" ++ host ++ strip_trailing_slashes path)%string.
Proof.
  rewrite normalizeUrl_unfold. cbn [is_empty append].
  change (String "h" (String "t" (String "t" (String "p" (String "s"
            (String ":" (String "/" (String "/" (host ++ path)))))))))
    with ("https://" ++ host ++ path)%string.
  rewrite (cleaned_prefixed "https://" eq_refl).
  apply finish_https.
Qed.

Lemma trim_bare (pre : string) :
  Str.forallb not_ws pre = true ->
  trim (pre ++ host ++ path) = (pre ++ host ++ path)%string.
Proof.
  intros Hpre. destruct host_facts as [Hc [_ [Hp _]]].
  apply trim_noop. rewrite !forallb_app, Hpre, (path_ok_not_ws path Hp).
  now rewrite (forallb_impl is_host_char not_ws host host_char_not_ws Hc).
Qed.

Lemma submit_bare :
  Hero.handleSubmit (host ++ path) =
  Some ("https://" ++ host ++ strip_trailing_slashes path)%string.
Proof.
  unfold Hero.handleSubmit, Hero.handleAnalyze.
  pose proof (trim_bare "" eq_refl) as Htr.
  change ("" ++ host ++ path)%string with (host ++ path)%string in Htr.
  rewrite Htr, host_nonempty_app, hero_normalize_bare, normalize_secure.
  reflexivity.
Qed.

Lemma submit_relative :
  Hero.handleSubmit ("//" ++ host ++ path) =
  Some ("https://" ++ host ++ strip_trailing_slashes path)%string.
Proof.
  unfold Hero.handleSubmit, Hero.handleAnalyze.
  rewrite (trim_bare "//" eq_refl).
  rewrite hero_normalize_relative, normalize_secure.
  reflexivity.
Qed.

End Host.

(** X25: for a bare domain (dot-separated host labels and an alphabetic
    top-level domain), with or without a path, and for the same text behind
    two leading slashes, both normalisers and the whole submit path return
    ["https://"] followed by the host and the path: part_000 with the
    trailing slashes of the path removed, the Hero component with the path
    as typed. *)
Theorem bare_and_protocol_relative_inputs_become_https :
  forall (labels : list string) (tld path : string),
    bare_domain labels tld path = true ->
    let host := host_of labels tld in
    let kept := strip_trailing_slashes path in
    normalizeUrl (host ++ path) = ("https://" ++ host ++ kept)%string /\
    normalizeUrl ("//" ++ host ++ path) = ("https://" ++ host ++ kept)%string /\
    Hero.normalizeUrl (host ++ path) = ("https://" ++ host ++ path)%string /\
    Hero.normalizeUrl ("//" ++ host ++ path) =
      ("https://" ++ host ++ path)%string /\
    Hero.handleSubmit (host ++ path) =
      Some ("https://" ++ host ++ kept)%string /\
    Hero.handleSubmit ("//" ++ host ++ path) =
      Some ("https://" ++ host ++ kept)%string.
Proof.
  intros labels tld path Hb host kept. subst host kept.
  split; [now apply normalize_bare |].
  split; [now apply normalize_relative |].
  split; [now apply hero_normalize_bare |].
  split; [now apply hero_normalize_relative |].
  split; [now apply submit_bare | now apply submit_relative].
Qed.

Lemma example_com_becomes_https :
  bare_domain ["www"; "example"] "com" "/path/" = true /\
  normalizeUrl "www.example.com/path/" = "https://www.example.com/path" /\
  normalizeUrl "//www.example.com/path/" = "https://www.example.com/path" /\
  Hero.handleSubmit "www.example.com/path/" =
    Some "https://www.example.com/path".
Proof.
  pose proof (bare_and_protocol_relative_inputs_become_https
                ["www"; "example"] "com" "/path/" eq_refl)
    as [H1 [H2 [_ [_ [H5 _]]]]].
  split; [reflexivity |]. split; [exact H1 |]. split; [exact H2 | exact H5].
Defined.

End UpgradeFacts.

(** ** The documented examples, evaluated *)

Section DocumentedExamples.

(** The examples of the header comment of [normalizeUrl] (part_000). *)
Example normalizeUrl_documented :
  UrlNormalizer.normalizeUrl "example.com" = "https://example.com" /\
  UrlNormalizer.normalizeUrl "www.example.com" = "https://www.example.com" /\
  UrlNormalizer.normalizeUrl "example.com/path" = "https://example.com/path" /\
  UrlNormalizer.normalizeUrl "http://example.com" = "https://example.com" /\
  UrlNormalizer.normalizeUrl "https://example.com" = "https://example.com".
Proof. repeat split; reflexivity. Qed.

(** The comments of the Hero component: a scheme is left as it is, a root
    path is returned unchanged, anything else gets the https scheme. *)
Example hero_normalizeUrl_documented :
  Hero.normalizeUrl "http://example.com" = "http://example.com" /\
  Hero.normalizeUrl "/about" = "/about" /\
  Hero.normalizeUrl "localhost" = "https://localhost" /\
  Hero.normalizeUrl "easyoffer.ie" = "https://easyoffer.ie".
Proof. repeat split; reflexivity. Qed.

(** Test case 2 of the testing guide: the deduction for an AI/ML vendor is
    18, for the other listed categories between 8 and 16. *)
Example weighted_penalty_documented :
  Scoring.weighted_penalty "AI/ML" = 18%Z /\
  Scoring.weighted_penalty "Payment Processing" = 16%Z /\
  Scoring.weighted_penalty "CDN/Fonts" = 9%Z /\
  Scoring.weighted_penalty "Fonts" = 8%Z /\
  Scoring.weighted_penalty "Other" = 12%Z.
Proof. repeat split; reflexivity. Qed.

(** [calculate_weighted_score] on concrete vendors, as binary64 computes
    it: 100 - 12 * 0.8 - 8 * 1.0 is the float 82.4; 100 - 12 * 1.4 - 12 * 1.2
    is 68.80000000000001, one unit in the last place above the float 68.8;
    six AI/ML processors in the US bring the total to -8 and the score to
    0; and deductions that sum to 100 in exact arithmetic
    (4 * 18 + 16.8 + 11.2) leave 3.552713678800501e-15. *)
Example calculate_weighted_score_example :
  Scoring64.calculate_weighted_score
    [Scoring.mk_vendor (Some "CDN") "US";
     Scoring.mk_vendor None "GLOBAL"] = F64.of_Q 82.4 /\
  Scoring64.calculate_weighted_score
    [Scoring.mk_vendor (Some "Payment Processing") "US";
     Scoring.mk_vendor (Some "Email Service") "US"] =
    S754_finite false 4841369599423284 (-46) /\
  F64.of_Q 68.8 = S754_finite false 4841369599423283 (-46) /\
  Scoring64.running_total
    (repeat (Scoring.mk_vendor (Some "AI/ML Processing") "US") 6) =
    F64.of_Z (-8) /\
  Scoring64.calculate_weighted_score
    (repeat (Scoring.mk_vendor (Some "AI/ML Processing") "US") 6) =
    F64.of_Z 0 /\
  Scoring64.calculate_weighted_score
    (repeat (Scoring.mk_vendor (Some "Database/Storage") "US") 4 ++
     [Scoring.mk_vendor (Some "Cloud Infrastructure") "US";
      Scoring.mk_vendor (Some "Cloud Infrastructure") "GLOBAL"]) =
    S754_finite false 4503599627370496 (-100).
Proof. repeat split; vm_compute; reflexivity. Qed.

(** The first scenario of section 8 of the specification, with the two
    registry entries under the display names the scenario uses. *)
Example merge_scenario :
  fst (Merge.merge
         [Merge.mk_oracle_vendor "Stripe" "Payment Processing"
            "United States" "Critical"]
         [Merge.mk_detected_service "Google Fonts" "United States" "CDN/Fonts"
            "Medium" "fonts.googleapis.com";
          Merge.mk_detected_service "Stripe" "United States"
            "Payment Processing" "Critical" "js.stripe.com"]) =
  [Merge.mk_vendor "Stripe" "Payment Processing" "United States" "Critical"
     Merge.both;
   Merge.mk_vendor "Google Fonts" "CDN/Fonts" "United States" "Medium"
     Merge.resource_fingerprint].
Proof. reflexivity. Qed.

(** The page of [Examples.mixed_page], analysed for www.example.com: the
    same-site image is dropped by the tag loop, the same-site inline call is
    listed, since the sixth loop compares nothing with the base URL. *)
Example mixed_page_analysis :
  map Resources.domain
    (Resources.all_items
       (Resources.resources_by_type
          (Examples.analyze Examples.mixed_page Examples.parent_base))) =
  ["js.stripe.com"; "fonts.googleapis.com"; "widget.intercom.io";
   "fonts.googleapis.com"; "www.example.com"; "api.segment.com"] /\
  Resources.total_external_resources
    (Examples.analyze Examples.mixed_page Examples.parent_base) = 6.
Proof. split; vm_compute; reflexivity. Qed.

(** [match_known_services] on the hosts of that page. *)
Example mixed_page_services :
  map KnownServices.name
    (KnownServices.match_known_services
       ["js.stripe.com"; "fonts.googleapis.com"; "widget.intercom.io"]) =
  ["Stripe"; "Google Cloud Storage"; "Google Fonts"; "Intercom"].
Proof. vm_compute. reflexivity. Qed.

End DocumentedExamples.

(* ===================================================================== *)
(** * Part III: further properties of the code                             *)
(* ===================================================================== *)

(** ** Substrings and letter case *)

Section ContainsFacts.
Import Str MoreAux.

Lemma contains_unfold (n h : string) :
  contains n h =
  String.prefix n h ||
  match h with
  | EmptyString => false
  | String _ h' => contains n h'
  end.
Proof. destruct h; reflexivity. Qed.

Lemma contains_elim (n h : string) :
  contains n h = true -> exists a b, h = (a ++ n ++ b)%string.
Proof.
  induction h as [| c h IH]; rewrite contains_unfold; intros H;
    apply orb_true_iff in H; destruct H as [H | H]; try discriminate.
  - apply prefix_inv in H. destruct H as [y ->]. now exists "", y.
  - apply prefix_inv in H. destruct H as [y ->]. now exists "", y.
  - apply IH in H. destruct H as [a [b ->]]. now exists (String c a), b.
Qed.

Lemma contains_intro (n a b : string) : contains n (a ++ n ++ b) = true.
Proof.
  induction a as [| c a IH]; rewrite contains_unfold.
  - change ("" ++ n ++ b)%string with (n ++ b)%string.
    now rewrite prefix_app.
  - cbn [append]. rewrite IH. apply orb_true_r.
Qed.

Lemma contains_iff (n h : string) :
  contains n h = true <-> exists a b, h = (a ++ n ++ b)%string.
Proof.
  split; [apply contains_elim |]. intros [a [b ->]]. apply contains_intro.
Qed.

Lemma contains_extend (n h a b : string) :
  contains n h = true -> contains n (a ++ h ++ b) = true.
Proof.
  intros H. apply contains_elim in H. destruct H as [x [y ->]].
  replace (a ++ (x ++ n ++ y) ++ b)%string
    with ((a ++ x) ++ n ++ (y ++ b))%string
    by (now rewrite !string_app_assoc).
  apply contains_intro.
Qed.

Lemma contains_trans (a b c : string) :
  contains a b = true -> contains b c = true -> contains a c = true.
Proof.
  intros Hab Hbc. apply contains_elim in Hbc. destruct Hbc as [x [y ->]].
  now apply contains_extend.
Qed.

Lemma upper_app (a b : string) : upper (a ++ b) = (upper a ++ upper b)%string.
Proof. induction a as [| c a IH]; simpl; [reflexivity | now rewrite IH]. Qed.

Lemma lower_app (a b : string) : lower (a ++ b) = (lower a ++ lower b)%string.
Proof. induction a as [| c a IH]; simpl; [reflexivity | now rewrite IH]. Qed.

Lemma contains_upper (n h : string) :
  contains n h = true -> contains (upper n) (upper h) = true.
Proof.
  intros H. apply contains_elim in H. destruct H as [a [b ->]].
  rewrite !upper_app. apply contains_intro.
Qed.

Lemma contains_lower (n h : string) :
  contains n h = true -> contains (lower n) (lower h) = true.
Proof.
  intros H. apply contains_elim in H. destruct H as [a [b ->]].
  rewrite !lower_app. apply contains_intro.
Qed.

Ltac by_char c :=
  destruct c as [[] [] [] [] [] [] [] []]; vm_compute;
  intros; solve [reflexivity | discriminate | tauto].

Lemma upper_char_idem (c : ascii) : upper_char (upper_char c) = upper_char c.
Proof. by_char c. Qed.

Lemma upper_lower_char (c : ascii) : upper_char (lower_char c) = upper_char c.
Proof. by_char c. Qed.

Lemma lower_upper_char (c : ascii) : lower_char (upper_char c) = lower_char c.
Proof. by_char c. Qed.

Lemma lower_char_not_upper (c : ascii) : is_upper (lower_char c) = false.
Proof. by_char c. Qed.

Lemma upper_idem (s : string) : upper (upper s) = upper s.
Proof.
  induction s as [| c s IH]; simpl; [reflexivity |].
  now rewrite upper_char_idem, IH.
Qed.

Lemma upper_lower (s : string) : upper (lower s) = upper s.
Proof.
  induction s as [| c s IH]; simpl; [reflexivity |].
  now rewrite upper_lower_char, IH.
Qed.

Lemma lower_upper (s : string) : lower (upper s) = lower s.
Proof.
  induction s as [| c s IH]; simpl; [reflexivity |].
  now rewrite lower_upper_char, IH.
Qed.

Lemma lower_no_upper (s : string) :
  Str.forallb (fun c => negb (is_upper c)) (lower s) = true.
Proof.
  induction s as [| c s IH]; simpl; [reflexivity |].
  now rewrite lower_char_not_upper, IH.
Qed.

Lemma contains_forallb (p : ascii -> bool) (n h : string) :
  contains n h = true -> Str.forallb p h = true -> Str.forallb p n = true.
Proof.
  intros H Hh. apply contains_elim in H. destruct H as [a [b ->]].
  rewrite !forallb_app in Hh.
  apply andb_true_iff in Hh. destruct Hh as [_ Hh].
  apply andb_true_iff in Hh. tauto.
Qed.

End ContainsFacts.

(** ** More on URL normalisation and the submit path *)

Section MoreUrlFacts.
Import Str Regex RegexAux UrlAux UrlNormalizer.

Lemma lit_i_split (a b : string) :
  forall s, matches (lit_i (a ++ b)) s ->
    exists s1 s2,
      s = (s1 ++ s2)%string /\ matches (lit_i a) s1 /\ matches (lit_i b) s2.
Proof.
  induction a as [| c a IH]; intros s H.
  - exists "", s. repeat split; [constructor | exact H].
  - cbn [append lit_i] in H. apply cat_inv in H.
    destruct H as [x [y [-> [Hx Hy]]]].
    apply IH in Hy. destruct Hy as [y1 [y2 [-> [H1 H2]]]].
    exists (x ++ y1)%string, y2. rewrite string_app_assoc.
    repeat split; [| exact H2]. cbn [lit_i]. now constructor.
Qed.

Lemma http_implies_scheme (u : string) :
  prefix_match http_re u = true -> prefix_match scheme_re u = true.
Proof.
  intros H. apply prefix_match_elim in H. destruct H as [s1 [s2 [-> Hm]]].
  apply prefix_match_intro.
  apply (lit_i_split "http" "://") in Hm.
  destruct Hm as [x [y [-> [Hx Hy]]]].
  unfold scheme_re. constructor; [exact Hx |].
  change y with ("" ++ y)%string. constructor; [| exact Hy].
  apply MAltR. constructor.
Qed.

Lemma finish_never_http (u : string) : prefix_match http_re (finish u) = false.
Proof.
  unfold finish.
  destruct (prefix_match scheme_re u) eqn:Hscheme.
  - destruct (prefix_match http_re u) eqn:Hhttp; [apply http_https | exact Hhttp].
  - destruct (startsWith "//" u) eqn:Hrel.
    + apply startsWith_slashes in Hrel. destruct Hrel as [y ->].
      apply (http_https y).
    + destruct (looks_like_host u); [apply http_https |].
      destruct (prefix_match http_re u) eqn:Hhttp; [| reflexivity].
      apply http_implies_scheme in Hhttp. congruence.
Qed.

(** X1: whatever the input, the result of [normalizeUrl] (part_000) does not
    start with the scheme http:// in any letter case. *)
Theorem normalizeUrl_never_returns_http :
  forall s : string, prefix_match http_re (normalizeUrl s) = false.
Proof.
  intros s. rewrite normalizeUrl_unfold.
  destruct s as [| c s']; [reflexivity |]. cbn [is_empty].
  apply finish_never_http.
Qed.

Lemma finish_head (u : string) :
  head_ok is_ws u = true -> tail_ok is_slash u = true ->
  head_ok is_ws (finish u) = true.
Proof.
  intros Hh Ht. destruct (finish_cases u Ht) as [-> | [x [_ [-> _]]]];
    [exact Hh | reflexivity].
Qed.

(** X2: the result of [normalizeUrl] (part_000) never ends in a slash and
    never starts with white space. *)
Theorem normalizeUrl_result_is_stripped :
  forall s : string,
    tail_ok is_slash (normalizeUrl s) = true /\
    head_ok is_ws (normalizeUrl s) = true.
Proof.
  intros s. rewrite normalizeUrl_unfold.
  destruct s as [| c s']; [now split |]. cbn [is_empty]. split.
  - apply finish_tail, cleaned_tail.
  - apply finish_head; [apply cleaned_head | apply cleaned_tail].
Qed.

(** X3: [normalizeUrl] (part_000) returns the empty string exactly when
    nothing is left of the input after trimming and removing the trailing
    slashes, that is for blank inputs and for inputs made of slashes. *)
Theorem normalizeUrl_empty_iff_nothing_left :
  forall s : string,
    normalizeUrl s = "" <-> strip_trailing_slashes (trim s) = "".
Proof.
  intros s. rewrite normalizeUrl_unfold.
  destruct s as [| c s']; [simpl; tauto |]. cbn [is_empty].
  set (u := strip_trailing_slashes (trim (String c s'))).
  split.
  - intros E. destruct (finish_cases u (cleaned_tail _)) as [E' | [x [_ [E' _]]]].
    + now rewrite <- E', E.
    + rewrite E' in E. discriminate.
  - intros ->. reflexivity.
Qed.

Lemma trim_head (s : string) : head_ok is_ws (trim s) = true.
Proof. unfold trim. apply drop_end_head, drop_start_head. Qed.

Lemma trim_tail (s : string) : tail_ok is_ws (trim s) = true.
Proof. unfold trim. apply drop_end_tail. Qed.

Lemma trim_idem (s : string) : trim (trim s) = trim s.
Proof.
  unfold trim at 1. rewrite drop_start_id by apply trim_head.
  apply drop_end_id_iff, trim_tail.
Qed.

(** X4: white space around the input is irrelevant to [normalizeUrl]
    (part_000): the trimmed input gives the same result. *)
Theorem normalizeUrl_ignores_surrounding_space :
  forall s : string, normalizeUrl (trim s) = normalizeUrl s.
Proof.
  intros s. rewrite !normalizeUrl_unfold, trim_idem.
  destruct s as [| c s']; [reflexivity |]. cbn [is_empty].
  destruct (trim (String c s')) eqn:E; reflexivity.
Qed.

(** X5: [normalizeUrl] of the Hero component returns a blank input as it
    is, and otherwise the trimmed input behind nothing, ["https:"] or
    ["https://"]: no character of the trimmed input is removed or changed,
    and an input that has a scheme is only trimmed. *)
Theorem hero_normalizeUrl_only_prepends :
  forall s : string,
    (trim s = "" -> Hero.normalizeUrl s = s) /\
    (trim s <> "" ->
       Hero.normalizeUrl s = trim s \/
       Hero.normalizeUrl s = ("https:" ++ trim s)%string \/
       Hero.normalizeUrl s = ("https://" ++ trim s)%string) /\
    (prefix_match scheme_re (trim s) = true -> Hero.normalizeUrl s = trim s).
Proof.
  intros s. rewrite hero_normalizeUrl_unfold. split; [| split].
  - intros ->. cbn [is_empty]. now rewrite orb_true_r.
  - intros Hne. destruct s as [| c s']; [now elim Hne |]. cbn [is_empty orb].
    destruct (trim (String c s')) eqn:E; [now elim Hne |].
    cbn [is_empty]. apply hero_finish_cases.
  - intros Hscheme. destruct s as [| c s']; [reflexivity |]. cbn [is_empty orb].
    destruct (trim (String c s')) eqn:E; [discriminate Hscheme |].
    cbn [is_empty]. unfold hero_finish.
    destruct (prefix_match scheme_re (String a s)); [reflexivity | discriminate].
Qed.

(** X6: the submit path makes no request for a blank field, and the URL it
    posts otherwise never has the scheme http://, never ends in a slash and
    never starts with white space. *)
Theorem submitted_url_is_never_http :
  forall field : string,
    (Hero.handleSubmit field = None <-> trim field = "") /\
    (forall url : string,
       Hero.handleSubmit field = Some url ->
       prefix_match http_re url = false /\
       tail_ok is_slash url = true /\ head_ok is_ws url = true).
Proof.
  intros field. unfold Hero.handleSubmit, Hero.handleAnalyze. split.
  - destruct (trim field); cbn [is_empty]; split; congruence.
  - intros url H. destruct (is_empty (trim field)); [discriminate |].
    injection H as <-.
    set (h := Hero.normalizeUrl (trim field)).
    rewrite normalizeUrl_unfold.
    destruct h as [| c h']; [repeat split |]. cbn [is_empty].
    split; [apply finish_never_http |]. split.
    + apply finish_tail, cleaned_tail.
    + apply finish_head; [apply cleaned_head | apply cleaned_tail].
Qed.

Lemma startsWith_head (t : string) :
  t <> "" -> startsWith "/" t = false -> head_ok is_slash t = true.
Proof.
  destruct t as [| c t']; [intros H; now elim H |]. intros _.
  unfold startsWith. cbn [String.prefix head_ok].
  destruct (ascii_dec "/" c) as [<- | Hne].
  - destruct t'; discriminate.
  - intros _. unfold is_slash. destruct (Ascii.eqb c "/") eqn:E; [| reflexivity].
    apply Ascii.eqb_eq in E. now elim Hne.
Qed.

Lemma cleaned_https_exact (t : string) :
  t <> "" -> head_ok is_ws t = true -> tail_ok is_ws t = true ->
  head_ok is_slash t = true ->
  strip_trailing_slashes (trim ("https://" ++ t)) =
  ("https://" ++ strip_trailing_slashes t)%string.
Proof.
  destruct t as [| c rest]; [intros H; now elim H |]. intros _ Hws Hwt Hsl.
  cbn [head_ok] in Hws, Hsl.
  unfold trim. rewrite drop_start_id by reflexivity.
  rewrite (drop_end_app_split is_ws "https://" (String c rest) eq_refl)
    by discriminate.
  rewrite (proj2 (drop_end_id_iff is_ws (String c rest)) Hwt).
  unfold strip_trailing_slashes.
  change ("https://" ++ String c rest)%string
    with (("https://" ++ String c "") ++ rest)%string.
  rewrite (drop_end_app_split is_slash);
    [| rewrite tail_ok_last; exact Hsl | discriminate].
  change (String c rest) with (String c "" ++ rest)%string.
  rewrite (drop_end_app_split is_slash (String c "") rest);
    [| simpl; exact Hsl | discriminate].
  now rewrite string_app_assoc.
Qed.

(** X7: when the trimmed field has no http(s) scheme and does not start
    with a slash, the submit path posts ["https://"] followed by the trimmed
    field without its trailing slashes, whatever the text is. *)
Theorem submit_prefixes_https_to_schemeless_text :
  forall field : string,
    trim field <> "" ->
    prefix_match scheme_re (trim field) = false ->
    startsWith "/" (trim field) = false ->
    Hero.handleSubmit field =
    Some ("https://" ++ strip_trailing_slashes (trim field))%string.
Proof.
  intros field Hne Hscheme Hroot.
  unfold Hero.handleSubmit, Hero.handleAnalyze.
  assert (trim (trim field) = trim field) as Htt by apply trim_idem.
  pose proof (trim_head field) as Hh. pose proof (trim_tail field) as Htl.
  remember (trim field) as t eqn:Et. clear Et.
  destruct (is_empty t) eqn:He; [destruct t; [now elim Hne | discriminate] |].
  f_equal.
  assert (Hero.normalizeUrl t = ("https://" ++ t)%string) as ->.
  { rewrite hero_normalizeUrl_unfold, Htt, He. cbn [orb]. unfold hero_finish.
    rewrite Hscheme, Hroot.
    destruct (startsWith "//" t) eqn:Hrel.
    - apply startsWith_two_one in Hrel. congruence.
    - destruct (prefix_match Hero.domain_re t);
        destruct (full_match Hero.label_re t); reflexivity. }
  rewrite normalizeUrl_unfold. cbn [is_empty append].
  change (String "h" (String "t" (String "t" (String "p" (String "s"
            (String ":" (String "/" (String "/" t))))))))
    with ("https://" ++ t)%string.
  rewrite cleaned_https_exact; try assumption.
  - apply finish_https.
  - now apply startsWith_head.
Qed.

Lemma submit_prefixes_https_example :
  trim "  my intranet/wiki/ " <> "" /\
  Hero.handleSubmit "  my intranet/wiki/ " = Some "https://my intranet/wiki".
Proof.
  split; [discriminate |].
  apply (submit_prefixes_https_to_schemeless_text "  my intranet/wiki/ ");
    [discriminate | reflexivity | reflexivity].
Defined.

(** X8: the address of the analyse endpoint is the configured API address
    followed by ["/analyze"]: the address never ends in a slash, so the
    second removal of trailing slashes in [handleAnalyze] changes nothing
    and the endpoint never holds two slashes before ["analyze"]; without
    configuration it is the local default. *)
Theorem analyze_endpoint_has_single_slash :
  forall env : option string,
    tail_ok is_slash (Config.API_URL env) = true /\
    Config.baseUrl env = Config.API_URL env /\
    Config.analyzeUrl env = (Config.API_URL env ++ "/analyze")%string /\
    Config.analyzeUrl None = "http://localhost:8000/analyze" /\
    Config.analyzeUrl (Some "") = "http://localhost:8000/analyze".
Proof.
  intros env.
  assert (tail_ok is_slash (Config.API_URL env) = true) as Ht
    by apply drop_end_tail.
  assert (Config.baseUrl env = Config.API_URL env) as Hb
    by (unfold Config.baseUrl, strip_trailing_slashes; apply drop_end_idem).
  repeat split; try assumption; try reflexivity.
  unfold Config.analyzeUrl. now rewrite Hb.
Qed.

End MoreUrlFacts.

(** ** More on the weighted score *)

Section MoreScoringFacts.
Import Scoring.
Local Open Scope Q_scope.

Lemma clamp_monotone (a b : Q) : a <= b -> clamp a <= clamp b.
Proof.
  intros H. unfold clamp, py_max, py_min.
  destruct (Qlt_le_dec a 100); destruct (Qlt_le_dec b 100);
    repeat match goal with
           | |- context [Qlt_le_dec ?x ?y] => destruct (Qlt_le_dec x y)
           end; lra.
Qed.

Lemma clamp_compat (a b : Q) : a == b -> clamp a == clamp b.
Proof.
  intros H. apply Qle_antisym; apply clamp_monotone; lra.
Qed.

Lemma total_penalty_app (vs ws : list vendor) :
  total_penalty (vs ++ ws) == total_penalty vs + total_penalty ws.
Proof.
  induction vs as [| v vs IH]; simpl; [ring | rewrite IH; ring].
Qed.

Lemma penalty_le_18 (v : vendor) : penalty v <= 18.
Proof.
  unfold penalty, base_penalty.
  destruct (weight_of_bounds v) as [Hlo Hhi].
  destruct (Str.contains "US" (location v));
    [| destruct (Str.contains "GLOBAL" (location v))]; nra.
Qed.

Lemma total_penalty_le (vs : list vendor) :
  total_penalty vs <= 18 * inject_Z (Z.of_nat (length vs)).
Proof.
  induction vs as [| v vs IH].
  - unfold Qle. simpl. lia.
  - cbn [total_penalty length]. rewrite Nat2Z.inj_succ, <- Z.add_1_r.
    rewrite inject_Z_plus. pose proof (penalty_le_18 v).
    change (inject_Z 1) with 1. lra.
Qed.

(** X9: a list without vendors scores 100, and appending vendors never
    raises the score returned by [calculate_weighted_score]. *)
Theorem more_vendors_never_raise_the_score :
  forall vs ws : list vendor,
    calculate_weighted_score [] == 100 /\
    calculate_weighted_score (vs ++ ws) <= calculate_weighted_score vs.
Proof.
  intros vs ws. split; [reflexivity |].
  unfold calculate_weighted_score. apply clamp_monotone.
  rewrite !running_total_closed, total_penalty_app.
  pose proof (total_penalty_nonneg ws). lra.
Qed.

(** X10: one vendor costs at most 18 points, so [n] vendors leave a score of
    at least [100 - 18 n]; with five vendors or fewer the score is at least
    10. *)
Theorem score_is_at_least_100_minus_18_per_vendor :
  forall vs : list vendor,
    100 - 18 * inject_Z (Z.of_nat (length vs)) <= calculate_weighted_score vs /\
    ((length vs <= 5)%nat -> 10 <= calculate_weighted_score vs).
Proof.
  intros vs.
  assert (100 - 18 * inject_Z (Z.of_nat (length vs))
          <= calculate_weighted_score vs) as Hb.
  { unfold calculate_weighted_score.
    pose proof (running_total_closed vs) as Hc.
    pose proof (total_penalty_le vs) as Hp.
    pose proof (clamp_bounds (running_total vs)) as [H0 _].
    destruct (Qlt_le_dec (running_total vs) 0) as [Hneg | Hpos]; [lra |].
    pose proof (total_penalty_nonneg vs).
    assert (clamp (running_total vs) == running_total vs) as Hin
      by (apply clamp_inside; lra).
    lra. }
  split; [exact Hb |].
  intros Hn.
  assert (inject_Z (Z.of_nat (length vs)) <= 5) as H5.
  { change 5 with (inject_Z 5). rewrite <- Zle_Qle. lia. }
  lra.
Qed.

(** A vendor is charged when its location mentions "US" or "GLOBAL". *)
Lemma uncharged_penalty (v : vendor) :
  Str.contains "US" (location v) = false ->
  Str.contains "GLOBAL" (location v) = false ->
  penalty v == 0.
Proof.
  intros Hus Hgl. unfold penalty, base_penalty. rewrite Hus, Hgl. ring.
Qed.

Lemma total_penalty_filter (vs : list vendor) :
  total_penalty
    (filter (fun v => Str.contains "US" (location v) ||
                      Str.contains "GLOBAL" (location v)) vs)
  == total_penalty vs.
Proof.
  induction vs as [| v vs IH]; simpl; [reflexivity |].
  destruct (Str.contains "US" (location v)) eqn:Hus; simpl.
  - now rewrite IH.
  - destruct (Str.contains "GLOBAL" (location v)) eqn:Hgl; simpl.
    + now rewrite IH.
    + rewrite IH, (uncharged_penalty v Hus Hgl). ring.
Qed.

(** X11: vendors whose location mentions neither "US" nor "GLOBAL" (in
    capitals) do not count: removing them from the list leaves the score
    unchanged. *)
Theorem only_us_and_global_vendors_count :
  forall vs : list vendor,
    calculate_weighted_score
      (filter (fun v => Str.contains "US" (location v) ||
                        Str.contains "GLOBAL" (location v)) vs)
    == calculate_weighted_score vs.
Proof.
  intros vs. unfold calculate_weighted_score. apply clamp_compat.
  now rewrite !running_total_closed, total_penalty_filter.
Qed.

End MoreScoringFacts.

(** ** More on the known services *)

Section MoreKnownServicesFacts.
Import KnownServices MoreAux.

Lemma inner_closed (domain : string) (known : registry) :
  forall detected,
    fold_left (match_entry domain) known detected =
    detected ++ matches_of known domain.
Proof.
  induction known as [| [k info] known' IH]; intros detected.
  - unfold matches_of. simpl. now rewrite app_nil_r.
  - cbn [fold_left]. rewrite IH. unfold matches_of, match_entry. cbn [filter fst].
    destruct (Str.contains k domain); cbn [map snd].
    + now rewrite <- app_assoc.
    + reflexivity.
Qed.

Lemma outer_closed (known : registry) (domains : list string) :
  forall detected,
    fold_left (fun acc d => fold_left (match_entry d) known acc)
              domains detected =
    detected ++ flat_map (matches_of known) domains.
Proof.
  induction domains as [| d ds IH]; intros detected; cbn [fold_left flat_map].
  - now rewrite app_nil_r.
  - rewrite IH, inner_closed. now rewrite <- app_assoc.
Qed.

Lemma match_services_closed (known : registry) (domains : list string) :
  match_services known domains = flat_map (matches_of known) domains.
Proof. unfold match_services. now rewrite outer_closed. Qed.

(** X12: [match_known_services] works hostname by hostname: the result for
    a concatenation of two lists is the concatenation of the results, each
    hostname contributing the records of the keys it contains, in registry
    order; every record returned is a record of the registry. *)
Theorem matching_is_hostname_by_hostname :
  forall (known : registry) (ds1 ds2 : list string),
    match_services known (ds1 ++ ds2) =
      match_services known ds1 ++ match_services known ds2 /\
    match_services known ds1 = flat_map (matches_of known) ds1 /\
    (forall info, In info (match_services known ds1) ->
                  In info (map snd known)).
Proof.
  intros known ds1 ds2. rewrite !match_services_closed. split; [| split].
  - apply flat_map_app.
  - reflexivity.
  - intros info Hin. apply in_flat_map in Hin. destruct Hin as [d [_ Hin]].
    unfold matches_of in Hin. apply in_map_iff in Hin.
    destruct Hin as [e [<- He]]. apply filter_In in He.
    apply in_map. tauto.
Qed.

(** X13: there is no preference for the longer key: when one key of the
    registry occurs inside another, every hostname that matches the longer
    key yields the records of both. *)
Theorem contained_key_is_always_reported_too :
  forall (known : registry) (k1 k2 : string) (i1 i2 : service_info)
         (domains : list string) (d : string),
    In (k1, i1) known -> In (k2, i2) known ->
    Str.contains k1 k2 = true ->
    In d domains -> Str.contains k2 d = true ->
    In i1 (match_services known domains) /\
    In i2 (match_services known domains).
Proof.
  intros known k1 k2 i1 i2 domains d H1 H2 H12 Hd H2d.
  rewrite match_services_closed.
  assert (forall k i, In (k, i) known -> Str.contains k d = true ->
                      In i (flat_map (matches_of known) domains)) as Hin.
  { intros k i Hk Hc. apply in_flat_map. exists d. split; [exact Hd |].
    unfold matches_of. apply in_map_iff. exists (k, i). split; [reflexivity |].
    apply filter_In. now split. }
  split.
  - apply (Hin k1 i1 H1). now apply (contains_trans k1 k2 d).
  - now apply (Hin k2 i2 H2).
Qed.

Lemma google_fonts_comes_with_cloud_storage :
  In "Google Cloud Storage"
     (map name (match_known_services ["cdn.example"; "fonts.googleapis.com"])) /\
  In "Google Fonts"
     (map name (match_known_services ["cdn.example"; "fonts.googleapis.com"])).
Proof.
  destruct (contained_key_is_always_reported_too KNOWN_SERVICES
              "googleapis.com" "fonts.googleapis.com"
              (svc "Google Cloud Storage" "United States" "Cloud Storage"
                   "Critical")
              (mk_info "Google Fonts" "United States" "CDN" "Medium"
                       (Some "Shares IP address with Google"))
              ["cdn.example"; "fonts.googleapis.com"] "fonts.googleapis.com")
    as [Ha Hb].
  - unfold KNOWN_SERVICES. simpl. tauto.
  - unfold KNOWN_SERVICES. simpl. tauto.
  - reflexivity.
  - simpl. tauto.
  - reflexivity.
  - split.
    + apply (in_map name) in Ha. exact Ha.
    + apply (in_map name) in Hb. exact Hb.
Defined.

Lemma registry_is_uncharged :
  Forall (fun info =>
            Str.contains "US" (location info) = false /\
            Str.contains "GLOBAL" (location info) = false)
         (map snd KNOWN_SERVICES).
Proof. unfold KNOWN_SERVICES. simpl. repeat constructor. Qed.

(** X14: no location of [KNOWN_SERVICES] mentions "US" or "GLOBAL" in
    capitals ("United States" does not), so whatever hostnames are matched,
    [calculate_weighted_score] of the records that [match_known_services]
    returns is 100. *)
Theorem matched_services_always_score_100 :
  forall domains : list string,
    Qeq (ServiceScore.score_of_services (match_known_services domains)) 100.
Proof.
  intros domains.
  unfold ServiceScore.score_of_services, Scoring.calculate_weighted_score.
  assert (forall info, In info (match_known_services domains) ->
                       In info (map snd KNOWN_SERVICES)) as Hsub.
  { intros info. unfold match_known_services.
    rewrite match_services_closed. intros Hin.
    apply in_flat_map in Hin. destruct Hin as [d [_ Hin]].
    unfold matches_of in Hin. apply in_map_iff in Hin.
    destruct Hin as [e [<- He]]. apply filter_In in He.
    apply in_map. tauto. }
  assert (Qeq (Scoring.total_penalty
                 (map ServiceScore.as_vendor (match_known_services domains)))
              0) as Hzero.
  { induction (match_known_services domains) as [| info out IH];
      [reflexivity |].
    cbn [map Scoring.total_penalty].
    pose proof (proj1 (Forall_forall _ _) registry_is_uncharged info
                  (Hsub info (or_introl eq_refl))) as [Hus Hgl].
    rewrite (uncharged_penalty (ServiceScore.as_vendor info) Hus Hgl).
    rewrite IH; [reflexivity |]. intros i Hi. apply Hsub. now right. }
  rewrite (clamp_compat _ 100).
  - apply clamp_inside. split; [discriminate | apply Qle_refl].
  - rewrite running_total_closed, Hzero. reflexivity.
Qed.

(** X15: [detect_known_services] lowers the markup before it searches, so
    a registry key that holds an upper-case letter is never detected,
    whatever the markup. *)
Theorem key_with_capital_is_never_detected :
  forall (known : json_registry) (html key : string),
    has_upper key = true ->
    ~ In key (map d_domain (detect_known_services known html)).
Proof.
  intros known html key Hup Hin.
  unfold detect_known_services in Hin. rewrite detect_outer in Hin.
  cbn [map app] in Hin. apply filter_In in Hin. destruct Hin as [_ Hc].
  apply (contains_forallb (fun c => negb (Str.is_upper c))) in Hc;
    [| apply lower_no_upper].
  unfold has_upper in Hup. rewrite Hc in Hup. discriminate.
Qed.

Lemma capital_key_example :
  has_upper "Stripe.com" = true /\
  ~ In "Stripe.com"
      (map d_domain
         (detect_known_services
            [("payment",
              [("Stripe.com",
                mk_json_info "Stripe" "United States" "Payment Processing"
                  "Critical" "Payment data" [] None None)])]
            "<script src='https://js.Stripe.com/v3'></script>")).
Proof.
  split; [reflexivity |].
  apply key_with_capital_is_never_detected. reflexivity.
Defined.

(** X16: [detect_known_services] ignores the letter case of ASCII markup:
    the upper-cased and the lower-cased markup give the same records. *)
Theorem detection_ignores_markup_case :
  forall (known : json_registry) (html : string),
    ascii_only html = true ->
    detect_known_services known (Str.upper html) =
      detect_known_services known html /\
    detect_known_services known (Str.lower html) =
      detect_known_services known html.
Proof.
  intros known html _. unfold detect_known_services.
  rewrite lower_upper. split; [reflexivity |].
  assert (Str.lower (Str.lower html) = Str.lower html) as ->; [| reflexivity].
  rewrite <- (lower_upper html) at 2. rewrite <- (lower_upper (Str.lower html)).
  now rewrite upper_lower.
Qed.

Lemma detection_ignores_markup_case_example :
  ascii_only "<SCRIPT SRC='HTTPS://JS.STRIPE.COM/V3'>" = true /\
  map d_domain
    (detect_known_services
       [("payment",
         [("js.stripe.com",
           mk_json_info "Stripe.js" "United States" "Payment Processing"
             "Critical" "Card details" ["Mollie"] None None)])]
       (Str.upper "<SCRIPT SRC='HTTPS://JS.STRIPE.COM/V3'>")) =
  ["js.stripe.com"].
Proof.
  split; [reflexivity |].
  rewrite (proj1 (detection_ignores_markup_case _
                    "<SCRIPT SRC='HTTPS://JS.STRIPE.COM/V3'>" eq_refl)).
  reflexivity.
Defined.

End MoreKnownServicesFacts.

(** ** More on the category weights *)

Section MoreWeightFacts.
Import Scoring MoreAux.

Lemma first_weight_in (table : list (string * Q)) (u : string) :
  In (first_weight table u) (1%Q :: map snd table).
Proof.
  induction table as [| [c w] table' IH]; cbn [first_weight map snd].
  - now left.
  - destruct (Str.contains (Str.upper c) u).
    + right. now left.
    + destruct IH as [H | H]; [now left | right; now right].
Qed.

(** X17: [get_category_weight] compares upper-cased texts, so the letter
    case of an ASCII purpose does not change the weight. *)
Theorem category_weight_ignores_case :
  forall purpose : string,
    ascii_only purpose = true ->
    get_category_weight (Str.lower purpose) = get_category_weight purpose /\
    get_category_weight (Str.upper purpose) = get_category_weight purpose.
Proof.
  intros purpose _. unfold get_category_weight.
  now rewrite upper_lower, upper_idem.
Qed.

Lemma category_weight_ignores_case_example :
  ascii_only "PAYMENT processing" = true /\
  get_category_weight (Str.lower "PAYMENT processing") =
    get_category_weight "PAYMENT processing".
Proof.
  split; [reflexivity |].
  apply (category_weight_ignores_case "PAYMENT processing"). reflexivity.
Defined.

(** X18: whatever the purpose, the weighted penalty that replaces the flat
    12 is one of 8, 9, 12, 13, 14, 15, 16 and 18; in particular it lies
    between 8 and 18. *)
Theorem weighted_penalty_values :
  forall purpose : string,
    In (weighted_penalty purpose) [8; 9; 12; 13; 14; 15; 16; 18]%Z /\
    (8 <= weighted_penalty purpose <= 18)%Z.
Proof.
  intros purpose.
  assert (In (weighted_penalty purpose) [8; 9; 12; 13; 14; 15; 16; 18]%Z) as H.
  { unfold weighted_penalty, get_category_weight.
    pose proof (first_weight_in CATEGORY_WEIGHTS (Str.upper purpose)) as Hin.
    apply (in_map (fun w => Qfloor (12 * w))) in Hin.
    set (p := Qfloor (12 * first_weight CATEGORY_WEIGHTS (Str.upper purpose)))
      in *.
    clearbody p. vm_compute in Hin. cbn [In].
    repeat (destruct Hin as [Hin | Hin]; [rewrite <- Hin; tauto |]).
    destruct Hin. }
  split; [exact H |].
  cbn [In] in H.
  repeat (destruct H as [H | H]; [rewrite <- H; lia |]). destruct H.
Qed.

End MoreWeightFacts.

(** ** The cookie classifier *)

Section CookieFacts.
Import Cookies.

Lemma any_in_extend (patterns : list string) (name a b : string) :
  any_in patterns (Str.lower name) = true ->
  any_in patterns (Str.lower (a ++ name ++ b)) = true.
Proof.
  unfold any_in. rewrite !existsb_exists. intros [p [Hp Hc]].
  exists p. split; [exact Hp |].
  rewrite !lower_app. now apply contains_extend.
Qed.

(** X19: [infer_cookie_purpose] searches the lowered name for its patterns,
    so text around a name never loses a classification: a name classed as
    "Analytics/Tracking" stays so inside any longer name, and a name classed
    as "Customer Support" is never "Unknown" inside a longer name. *)
Theorem cookie_purpose_survives_surrounding_text :
  forall name a b : string,
    (infer_cookie_purpose name = "Analytics/Tracking" ->
     infer_cookie_purpose (a ++ name ++ b) = "Analytics/Tracking") /\
    (infer_cookie_purpose name = "Customer Support" ->
     infer_cookie_purpose (a ++ name ++ b) <> "Unknown").
Proof.
  intros name a b. unfold infer_cookie_purpose. split.
  - destruct (any_in analytics_patterns (Str.lower name)) eqn:Ha.
    + intros _. now rewrite (any_in_extend _ name a b Ha).
    + destruct (any_in support_patterns (Str.lower name)); discriminate.
  - destruct (any_in analytics_patterns (Str.lower name)) eqn:Ha;
      [discriminate |].
    destruct (any_in support_patterns (Str.lower name)) eqn:Hs;
      [| discriminate].
    intros _.
    destruct (any_in analytics_patterns (Str.lower (a ++ name ++ b)));
      [discriminate |].
    rewrite (any_in_extend _ name a b Hs). discriminate.
Qed.

End CookieFacts.

(** ** The search for the privacy policy *)

Section PrivacyFacts.
Import Privacy.

Variable urljoin : string -> string -> string.
Variable head : string -> option nat.

Lemma first_found_some (base : string) (paths : list string) (u : string) :
  first_found urljoin head base paths = Some u ->
  exists pre path post,
    paths = pre ++ path :: post /\
    u = urljoin base path /\
    head u = Some 200 /\
    forall q, In q pre -> head (urljoin base q) <> Some 200.
Proof.
  induction paths as [| p paths' IH]; cbn [first_found]; [discriminate |].
  intros H.
  assert (head (urljoin base p) <> Some 200 ->
          first_found urljoin head base paths' = Some u ->
          exists pre path post,
            p :: paths' = pre ++ path :: post /\
            u = urljoin base path /\
            head u = Some 200 /\
            forall q, In q pre -> head (urljoin base q) <> Some 200) as Hnext.
  { intros Hp Hrest.
    destruct (IH Hrest) as [pre [path [post [-> [Hu [Hh Hpre]]]]]].
    exists (p :: pre), path, post. repeat split; try assumption.
    intros q [<- | Hq]; [exact Hp | now apply Hpre]. }
  destruct (head (urljoin base p)) as [status |] eqn:Hs.
  - destruct (Nat.eqb_spec status 200) as [-> | Hne].
    + injection H as <-. exists [], p, paths'.
      repeat split; [exact Hs | intros q []].
    + apply Hnext; [| exact H]. intros Heq. injection Heq as ->.
      now apply Hne.
  - apply Hnext; [discriminate | exact H].
Qed.

Lemma first_found_none (base : string) (paths : list string) :
  first_found urljoin head base paths = None <->
  forall q, In q paths -> head (urljoin base q) <> Some 200.
Proof.
  induction paths as [| p paths' IH]; cbn [first_found].
  - split; [intros _ q [] | reflexivity].
  - destruct (head (urljoin base p)) as [status |] eqn:Hs.
    + destruct (Nat.eqb_spec status 200) as [-> | Hne].
      * split; [discriminate |]. intros H. exfalso.
        apply (H p); [now left | exact Hs].
      * rewrite IH. split.
        -- intros H q [<- | Hq]; [| now apply H].
           rewrite Hs. intros Heq. injection Heq as ->. now apply Hne.
        -- intros H q Hq. apply H. now right.
    + rewrite IH. split.
      * intros H q [<- | Hq]; [| now apply H]. rewrite Hs. discriminate.
      * intros H q Hq. apply H. now right.
Qed.

(** X20: [find_privacy_policy_url] returns the URL of the first of its five
    paths that answers 200: a returned URL is the base joined with one of
    the paths, it answered 200 and no earlier path did; [None] is returned
    exactly when no path answers 200, a failed request counting as such. *)
Theorem privacy_policy_is_first_path_answering_200 :
  forall base : string,
    (forall u,
       find_privacy_policy_url urljoin head base = Some u ->
       exists pre path post,
         common_paths = pre ++ path :: post /\
         u = urljoin base path /\
         head u = Some 200 /\
         forall q, In q pre -> head (urljoin base q) <> Some 200) /\
    (find_privacy_policy_url urljoin head base = None <->
     forall q, In q common_paths -> head (urljoin base q) <> Some 200).
Proof.
  intros base. unfold find_privacy_policy_url. split.
  - intros u. apply first_found_some.
  - apply first_found_none.
Qed.

End PrivacyFacts.

(** ** More on the embedded resources *)

Section MoreResourcesFacts.
Import Resources MoreAux.

Variable findall : pattern -> string -> list string.
Variable findall_any : pattern -> string -> list found.
Variable urljoin : string -> string -> string.
Variable netloc : string -> string.

Lemma api_fold_closed (ms : list found) :
  forall acc,
    fold_left (api_step netloc) ms acc = acc ++ api_entries netloc ms.
Proof.
  induction ms as [| m ms' IH]; intros acc; cbn [fold_left].
  - unfold api_entries. simpl. now rewrite app_nil_r.
  - rewrite IH. unfold api_step, api_entries. cbn [filter].
    destruct (Str.startsWith "http" (url_of_match m)); cbn [map].
    + now rewrite <- app_assoc.
    + reflexivity.
Qed.

Lemma api_loop_closed (html : string) :
  api_loop findall_any netloc html =
  api_entries netloc (findall_any api_fetch html) ++
  api_entries netloc (findall_any api_axios html) ++
  api_entries netloc (findall_any api_ajax html).
Proof.
  unfold api_loop, api_patterns. cbn [fold_left].
  rewrite !api_fold_closed. cbn [app]. now rewrite <- app_assoc.
Qed.

(** X21: the inline calls (fetch, axios, ajax) are listed without looking
    at the base URL: every match whose URL starts with "http" is listed, in
    order of pattern and match, so the list is the same for every base URL
    and a call to the page's own host is listed as well. *)
Theorem api_calls_do_not_depend_on_base_url :
  forall html base base' : string,
    let out b :=
      resources_by_type
        (analyze_embedded_resources findall findall_any urljoin netloc html b) in
    api_calls (out base) =
      api_entries netloc (findall_any api_fetch html) ++
      api_entries netloc (findall_any api_axios html) ++
      api_entries netloc (findall_any api_ajax html) /\
    api_calls (out base) = api_calls (out base') /\
    (forall m,
       In m (findall_any api_fetch html) ->
       Str.startsWith "http" (url_of_match m) = true ->
       In (mk_resource (url_of_match m) (netloc (url_of_match m)) None)
          (api_calls (out base))).
Proof.
  intros html base base' out. unfold out, analyze_embedded_resources.
  cbn [resources_by_type api_calls]. split; [apply api_loop_closed |].
  split; [reflexivity |].
  intros m Hm Hs. rewrite api_loop_closed. apply in_or_app. left.
  unfold api_entries.
  apply (in_map (fun m => mk_resource (url_of_match m)
                            (netloc (url_of_match m)) None)).
  apply filter_In. now split.
Qed.

Lemma kept_refs_domain (base : string) (nt : option string)
    (refs : list string) (item : resource) :
  In item (kept_refs urljoin netloc base nt refs) ->
  domain item = netloc (url item) /\ keeps netloc base (domain item) = true.
Proof.
  unfold kept_refs. intros H. apply in_map_iff in H.
  destruct H as [ref [<- Hf]]. apply filter_In in Hf. cbn [domain url].
  tauto.
Qed.

Lemma api_entries_domain (ms : list found) (item : resource) :
  In item (api_entries netloc ms) ->
  domain item = netloc (url item) /\ Str.startsWith "http" (url item) = true.
Proof.
  unfold api_entries. intros H. apply in_map_iff in H.
  destruct H as [m [<- Hf]]. apply filter_In in Hf. cbn [domain url].
  tauto.
Qed.

(** X22: in the result of [analyze_embedded_resources] the domain of every
    entry is the host of the entry's own URL, and [unique_domains] never
    holds more hosts than [total_external_resources] counts entries. *)
Theorem unique_domains_are_at_most_the_total :
  forall html base : string,
    let out :=
      analyze_embedded_resources findall findall_any urljoin netloc html base in
    (forall item,
       In item (all_items (resources_by_type out)) ->
       domain item = netloc (url item)) /\
    length (unique_domains out) <= total_external_resources out.
Proof.
  intros html base out. split.
  - unfold out, analyze_embedded_resources.
    cbn [resources_by_type all_items external_scripts external_stylesheets
         external_images iframes external_fonts api_calls].
    rewrite !(tag_loop_closed urljoin netloc), api_loop_closed.
    intros item Hin.
    repeat (apply in_app_or in Hin;
            destruct Hin as [Hin | Hin];
            [first [ now apply kept_refs_domain in Hin
                   | now apply api_entries_domain in Hin ] |]).
    now apply api_entries_domain in Hin.
  - unfold out, analyze_embedded_resources.
    cbn [unique_domains total_external_resources].
    set (r := mk_resources _ _ _ _ _ _).
    rewrite <- (length_map domain (all_items r)).
    apply NoDup_incl_length.
    + unfold collect_domains. apply collect_nodup. constructor.
    + intros d Hd. unfold collect_domains in Hd. apply collect_in in Hd.
      destruct Hd as [[] | [item [Hi <-]]]. now apply in_map.
Qed.

(** X23: when no pattern finds anything in the markup, nothing is reported:
    all six lists and [unique_domains] are empty and the total is 0. *)
Theorem nothing_found_gives_empty_analysis :
  forall html base : string,
    (forall p, findall p html = []) ->
    (forall p, findall_any p html = []) ->
    analyze_embedded_resources findall findall_any urljoin netloc html base =
    mk_analysis (mk_resources [] [] [] [] [] []) [] 0.
Proof.
  intros html base Hf Ha. unfold analyze_embedded_resources.
  rewrite !Hf. unfold api_loop, api_patterns. cbn [fold_left].
  rewrite !Ha. reflexivity.
Qed.

End MoreResourcesFacts.

Lemma plain_text_gives_empty_analysis :
  Examples.analyze "<p>A page without references.</p>" "https://example.com" =
  Resources.mk_analysis (Resources.mk_resources [] [] [] [] [] []) [] 0.
Proof.
  unfold Examples.analyze.
  apply nothing_found_gives_empty_analysis; intros p; destruct p;
    vm_compute; reflexivity.
Defined.

(** ** The colour of a location on the dashboard *)

Section DashboardFacts.
Import Dashboard MoreAux.

Lemma color_red_iff (u : string) :
  color_of_upper u = Red <->
  Str.contains "US" u = true \/ Str.contains "UNITED STATES" u = true.
Proof.
  unfold color_of_upper.
  destruct (Str.contains "US" u) eqn:Hus.
  - cbn [orb]. split; [now left | reflexivity].
  - assert (Str.contains "USA" u = false) as ->.
    { destruct (Str.contains "USA" u) eqn:Husa; [| reflexivity].
      rewrite <- Hus. symmetry.
      now apply (contains_trans "US" "USA" u). }
    cbn [orb]. destruct (Str.contains "UNITED STATES" u).
    + split; [now right | reflexivity].
    + split.
      * match goal with
        | |- (if ?b then _ else _) = _ -> _ => destruct b; discriminate
        end.
      * intros [H | H]; discriminate.
Qed.

(** X24: [locationColor] is red exactly when the upper-cased location holds
    "US" or "UNITED STATES" ("USA" adds nothing), whatever European name it
    holds besides; so a location that holds "US" as written, which is what
    the score charges 12 for, is always red. *)
Theorem location_is_red_iff_it_mentions_us :
  forall loc : string,
    ascii_only loc = true ->
    (locationColor (Some loc) = Red <->
     Str.contains "US" (Str.upper loc) = true \/
     Str.contains "UNITED STATES" (Str.upper loc) = true) /\
    (Str.contains "US" loc = true -> locationColor (Some loc) = Red) /\
    (Scoring.base_penalty loc = 12%Q -> locationColor (Some loc) = Red).
Proof.
  intros loc _.
  assert (Str.contains "US" loc = true -> locationColor (Some loc) = Red)
    as Hus.
  { intros H. unfold locationColor. apply color_red_iff. left.
    now apply (contains_upper "US" loc). }
  split; [unfold locationColor; apply color_red_iff |].
  split; [exact Hus |].
  unfold Scoring.base_penalty.
  destruct (Str.contains "US" loc); [intros _; now apply Hus |].
  destruct (Str.contains "GLOBAL" loc); discriminate.
Qed.

Lemma austria_is_red :
  ascii_only "Austria (EU)" = true /\
  locationColor (Some "Austria (EU)") = Red.
Proof.
  split; [reflexivity |].
  destruct (location_is_red_iff_it_mentions_us "Austria (EU)" eq_refl)
    as [Hred _].
  apply Hred. left. reflexivity.
Defined.

End DashboardFacts.

(** ** Which inputs are upgraded to https *)

Section UpgradeExactFacts.
Import Str Regex UrlNormalizer UrlAux RegexAux.

Lemma lower_char_preimage (c : ascii) :
  c = lower_char c \/ c = upper_char (lower_char c).
Proof.
  destruct c as [[] [] [] [] [] [] [] []]; vm_compute;
    solve [now left | now right].
Qed.

(** The words of the scheme pattern: the letters of "http" in either case,
    possibly an "s" in either case, then a colon. *)
Lemma scheme_letters (s1 : string) :
  matches scheme_re s1 ->
  exists c1 c2 c3 c4 o x,
    s1 = String c1 (String c2 (String c3 (String c4 (o ++ String ":" x)))) /\
    lower_char c1 = "h"%char /\ lower_char c2 = "t"%char /\
    lower_char c3 = "t"%char /\ lower_char c4 = "p"%char /\
    (o = "" \/ exists c5, o = String c5 "" /\ lower_char c5 = "s"%char).
Proof.
  unfold scheme_re. intros H.
  apply cat_inv in H. destruct H as [h [rest [-> [Hh Hrest]]]].
  apply cat_inv in Hrest. destruct Hrest as [o [tl [-> [Ho Htl]]]].
  apply (lit_i_inv "http") in Hh. destruct Hh as [Hlen Hlow].
  apply (lit_i_inv "://") in Htl. destruct Htl as [Hlen3 Hlow3].
  destruct h as [| c1 [| c2 [| c3 [| c4 [| c5 h']]]]]; try discriminate Hlen.
  destruct tl as [| d tl']; [discriminate Hlen3 |].
  cbn [lower] in Hlow, Hlow3.
  injection Hlow as H1 H2 H3 H4. injection Hlow3 as Hd _.
  assert (d = ":"%char) as ->.
  { destruct (lower_char_preimage d) as [E | E]; rewrite Hd in E; exact E. }
  exists c1, c2, c3, c4, o, tl'. cbn [append].
  repeat split; try assumption.
  inversion Ho as [| | | ? ? ? HL | ? ? ? HR | |]; subst.
  - right. inversion HL as [| q c5 Hc5 | | | | |]; subst.
    exists c5. split; [reflexivity |]. now apply Ascii.eqb_eq in Hc5.
  - left. now inversion HR.
Qed.

Ltac no_word :=
  cbn [append full_match]; apply dead_no_match; vm_compute; reflexivity.

Ltac either_case c H :=
  destruct (lower_char_preimage c) as [?E | ?E]; rewrite H in E;
  vm_compute in E; subst c.

(** No host pattern accepts a text that starts with a scheme. *)
Lemma host_not_scheme (u : string) :
  looks_like_host u = true -> prefix_match scheme_re u = false.
Proof.
  intros Hhost. destruct (prefix_match scheme_re u) eqn:Hm; [| reflexivity].
  exfalso. apply prefix_match_elim in Hm. destruct Hm as [s1 [s2 [-> Hs1]]].
  apply scheme_letters in Hs1.
  destruct Hs1 as [c1 [c2 [c3 [c4 [o [x [-> [H1 [H2 [H3 [H4 Ho]]]]]]]]]]].
  assert (looks_like_host
            (String c1 (String c2 (String c3 (String c4
               (o ++ String ":" x)))) ++ s2) = false) as Hno;
    [| rewrite Hno in Hhost; discriminate].
  clear Hhost. unfold looks_like_host.
  either_case c1 H1; either_case c2 H2; either_case c3 H3; either_case c4 H4;
    (destruct Ho as [-> | [c5 [-> H5]]]; [| either_case c5 H5]);
    repeat match goal with
           | |- context [full_match ?r ?s] =>
               let Hf := fresh "Hf" in
               assert (full_match r s = false) as Hf by no_word;
               rewrite Hf; clear Hf
           end; reflexivity.
Qed.

Lemma normalizeUrl_finish (s : string) :
  normalizeUrl s = finish (strip_trailing_slashes (trim s)).
Proof.
  rewrite normalizeUrl_unfold. destruct s as [| c s']; reflexivity.
Qed.

Lemma slashes_no_scheme (u : string) :
  startsWith "/" u = true -> prefix_match scheme_re u = false.
Proof.
  intros H. apply startsWith_slash in H. destruct H as [y ->].
  apply scheme_not_slash.
Qed.

Lemma host_no_slash (u : string) :
  looks_like_host u = true -> startsWith "/" u = false.
Proof.
  intros H. destruct (startsWith "/" u) eqn:Hs; [| reflexivity].
  apply startsWith_slash in Hs. destruct Hs as [y ->].
  now rewrite host_not_slash in H.
Qed.

Lemma not_one_not_two (u : string) :
  startsWith "/" u = false -> startsWith "//" u = false.
Proof.
  intros H. destruct (startsWith "//" u) eqn:Hs; [| reflexivity].
  apply startsWith_two_one in Hs. congruence.
Qed.

Lemma finish_relative (u : string) :
  startsWith "//" u = true -> finish u = ("https:" ++ u)%string.
Proof.
  intros H. unfold finish.
  rewrite (slashes_no_scheme u (startsWith_two_one u H)). now rewrite H.
Qed.

Lemma finish_host (u : string) :
  looks_like_host u = true -> finish u = ("https://" ++ u)%string.
Proof.
  intros H. unfold finish.
  rewrite (host_not_scheme u H), (not_one_not_two u (host_no_slash u H)).
  now rewrite H.
Qed.

Lemma finish_other (u : string) :
  prefix_match scheme_re u = false -> startsWith "//" u = false ->
  looks_like_host u = false -> finish u = u.
Proof. intros H1 H2 H3. unfold finish. now rewrite H1, H2, H3. Qed.

Lemma secure_has_scheme (u : string) :
  String.prefix "https://" u = true -> prefix_match scheme_re u = true.
Proof.
  intros H. apply prefix_inv in H. destruct H as [y ->]. apply scheme_https.
Qed.

Lemma finish_secure_iff (u : string) :
  String.prefix "https://" (finish u) = true <->
  String.prefix "https://" u = true \/ prefix_match http_re u = true \/
  startsWith "//" u = true \/ looks_like_host u = true.
Proof.
  split.
  - intros H. unfold finish in H.
    destruct (prefix_match scheme_re u) eqn:Hs.
    + destruct (prefix_match http_re u); [right; now left | now left].
    + destruct (startsWith "//" u); [right; right; now left |].
      destruct (looks_like_host u); [right; right; now right |].
      apply secure_has_scheme in H. congruence.
  - intros [H | [H | [H | H]]].
    + apply prefix_inv in H. destruct H as [y ->].
      rewrite finish_https. apply (prefix_app "https://").
    + unfold finish. rewrite (http_implies_scheme u H), H.
      apply http_shape in H. destruct H as [a [x [-> Ha]]].
      rewrite (upgrade_http_shape a x Ha). apply (prefix_app "https://").
    + rewrite (finish_relative u H).
      apply startsWith_slashes in H. destruct H as [y ->].
      apply (prefix_app "https://" y).
    + rewrite (finish_host u H). apply (prefix_app "https://").
Qed.

Lemma trim_nonempty (s : string) : trim s <> "" -> is_empty s = false.
Proof. destruct s; [intros H; now elim H | reflexivity]. Qed.

Lemma hero_normalizeUrl_trimmed (s : string) :
  trim s <> "" -> Hero.normalizeUrl s = hero_finish (trim s).
Proof.
  intros H. rewrite hero_normalizeUrl_unfold, (trim_nonempty s H).
  destruct (trim s); [now elim H | reflexivity].
Qed.

Lemma starts_nonempty (p c : string) (a : ascii) :
  startsWith (String a p) c = true -> c <> "".
Proof. intros H ->. discriminate H. Qed.

(** C8, as the code has it.  With [u] the input trimmed and without its
    trailing slashes, [normalizeUrl] of part_000 returns "https:" followed
    by [u] when [u] starts with two slashes, "https://" followed by [u]
    when [u] matches one of the four host patterns, and [u] itself for any
    other text without a scheme; its result begins with "https://" exactly
    in these two cases and for an input that had a scheme.  The bare domains
    (dot-separated labels, an alphabetic top-level domain, an optional path)
    match the host patterns.  With [t] the trimmed input, [normalizeUrl] of
    the Hero component returns "https:" followed by [t] when [t] starts with
    two slashes, [t] itself when it starts with one, and "https://" followed
    by [t] for every other text without a scheme. *)
Theorem normalizeUrl_upgrades_exactly_the_recognised_inputs :
  forall s : string,
    let u := strip_trailing_slashes (trim s) in
    let t := trim s in
    (startsWith "//" u = true -> normalizeUrl s = ("https:" ++ u)%string) /\
    (looks_like_host u = true -> normalizeUrl s = ("https://" ++ u)%string) /\
    (prefix_match scheme_re u = false -> startsWith "//" u = false ->
     looks_like_host u = false -> normalizeUrl s = u) /\
    (String.prefix "https://" (normalizeUrl s) = true <->
     String.prefix "https://" u = true \/ prefix_match http_re u = true \/
     startsWith "//" u = true \/ looks_like_host u = true) /\
    (forall (labels : list string) (tld path : string),
       bare_domain labels tld path = true ->
       looks_like_host (host_of labels tld ++ path) = true) /\
    (startsWith "//" t = true ->
       Hero.normalizeUrl s = ("https:" ++ t)%string) /\
    (startsWith "/" t = true -> startsWith "//" t = false ->
       Hero.normalizeUrl s = t) /\
    (t <> "" -> prefix_match scheme_re t = false ->
     startsWith "/" t = false ->
       Hero.normalizeUrl s = ("https://" ++ t)%string).
Proof.
  intros s u t. subst u t. rewrite normalizeUrl_finish.
  split; [apply finish_relative |].
  split; [apply finish_host |].
  split; [apply finish_other |].
  split; [apply finish_secure_iff |].
  split; [apply host_looks_like_host |].
  split; [| split].
  - intros H. rewrite hero_normalizeUrl_trimmed by (eapply starts_nonempty, H).
    unfold hero_finish.
    rewrite (slashes_no_scheme _ (startsWith_two_one _ H)). now rewrite H.
  - intros H1 H2.
    rewrite hero_normalizeUrl_trimmed by (eapply starts_nonempty, H1).
    unfold hero_finish. rewrite (slashes_no_scheme _ H1), H2.
    destruct (startsWith_slash _ H1) as [y Hy]. rewrite Hy.
    rewrite hero_domain_not_slash, hero_label_not_slash.
    rewrite <- Hy. now rewrite H1.
  - intros Hne Hs H1. rewrite hero_normalizeUrl_trimmed by exact Hne.
    unfold hero_finish. rewrite Hs, (not_one_not_two _ H1), H1.
    destruct (prefix_match Hero.domain_re (trim s)); [reflexivity |].
    destruct (full_match Hero.label_re (trim s)); reflexivity.
Qed.

(** C8 fails as stated: two slashes alone are reduced to the
    empty string by part_000 and to "https:" by the submit path, and part_000
    returns a bare domain with a port, with a query or with a punycode
    top-level domain as it was typed. *)
Lemma port_query_and_bare_slashes_are_not_upgraded :
  normalizeUrl "//" = "" /\
  Hero.handleSubmit "//" = Some "https:" /\
  normalizeUrl "example.com:8080" = "example.com:8080" /\
  normalizeUrl "example.com?x=1" = "example.com?x=1" /\
  normalizeUrl "shop.xn--p1ai" = "shop.xn--p1ai".
Proof. repeat split; vm_compute; reflexivity. Qed.

End UpgradeExactFacts.
